(** * Anime.js MCP server: validation, circuit breaker, cache and dispatch

    A shallow embedding of the request pipeline of the server
    ([utils/circuit-breaker.ts], [utils/cache.ts], [utils/validation.ts],
    [handler.ts] and the tool handlers under [tools/]) together with the
    properties its specification states about it.

    Conventions of the embedding:
    - JavaScript values that travel through the pipeline (request
      parameters, tool responses, cached data) are terms of [value];
    - strings are byte strings; [toLowerCase] folds the letters A-Z only,
      and [String.length] stands for the JavaScript [length];
    - [Date.now()] reads the [clock] of the [World]; the clock is moved
      between requests, never inside one synchronous run;
    - an [async] function is cut at its [await]: the part before it and the
      part after it are each one atomic step (JavaScript runs them without
      interleaving), see [execute_enter] and [execute_settle];
    - logging is not modelled. *)

From Stdlib Require Import ZArith String Ascii List Lia Bool DecimalString.
From stdpp Require Import gmap strings fin_maps.
Import ListNotations.
Open Scope string_scope.
Open Scope Z_scope.

(** ** JavaScript values *)

#[local] Set Warnings "-register-all".

Inductive value : Type :=
| VUndefined
| VNull
| VBool (b : bool)
| VNum (n : Z)
| VStr (s : string)
| VArr (items : list value)
| VObj (fields : list (string * value)).

(** Truthiness, as used by [!x], [x || y] and [if (x)]. *)
Definition truthy (v : value) : bool :=
  match v with
  | VUndefined | VNull => false
  | VBool b => b
  | VNum n => negb (n =? 0)
  | VStr s => negb (String.eqb s "")
  | VArr _ | VObj _ => true
  end.

(** [v || d] *)
Definition or_else (v d : value) : value := if truthy v then v else d.

Fixpoint assoc {A : Type} (k : string) (l : list (string * A)) : option A :=
  match l with
  | [] => None
  | (k', a) :: l' => if String.eqb k k' then Some a else assoc k l'
  end.

(** [v.k] for the fixed parameter names the handlers destructure
    ([componentName], [query], [topic], [name], [arguments], [uri]); none of
    them is inherited, so a value without the field reads as [undefined].
    The handlers only destructure truthy values. *)
Definition get_prop (v : value) (k : string) : value :=
  match v with
  | VObj fields => match assoc k fields with Some x => x | None => VUndefined end
  | _ => VUndefined
  end.

(** The properties every object literal inherits from [Object.prototype]:
    [o[k]] finds them when [k] is not an own key of [o]. *)
Definition object_prototype_keys : list string :=
  [ "constructor"; "__defineGetter__"; "__defineSetter__"; "hasOwnProperty";
    "__lookupGetter__"; "__lookupSetter__"; "isPrototypeOf";
    "propertyIsEnumerable"; "toString"; "valueOf"; "__proto__";
    "toLocaleString" ].

Inductive lookup_result (A : Type) : Type :=
| OwnProp (a : A)
| ProtoProp (k : string)
| NoProp.
Arguments OwnProp {A} a.
Arguments ProtoProp {A} k.
Arguments NoProp {A}.

(** [table[k]] on an object literal whose own entries are [table]. *)
Definition object_get {A : Type} (table : list (string * A)) (k : string)
  : lookup_result A :=
  match assoc k table with
  | Some a => OwnProp a
  | None => if existsb (String.eqb k) object_prototype_keys
            then ProtoProp k else NoProp
  end.

(** [Object.keys(table)] *)
Definition object_keys {A : Type} (table : list (string * A)) : list string :=
  map fst table.

(** ** Strings *)

(** The double quote character, as a one-character string. *)
Definition dq : string := String (ascii_of_nat 34) EmptyString.
(** The backquote and the line feed. *)
Definition bq : string := String (ascii_of_nat 96) EmptyString.
Definition nl : string := String (ascii_of_nat 10) EmptyString.

Definition lower_char (c : ascii) : ascii :=
  let n := nat_of_ascii c in
  if ((65 <=? n) && (n <=? 90))%nat then ascii_of_nat (n + 32) else c.

Fixpoint toLowerCase (s : string) : string :=
  match s with
  | EmptyString => EmptyString
  | String c s' => String (lower_char c) (toLowerCase s')
  end.

(** [s.includes(sub)] *)
Fixpoint includes (s sub : string) : bool :=
  if String.prefix sub s then true
  else match s with
       | EmptyString => false
       | String _ s' => includes s' sub
       end.

(** [s.replace(/[()]/g, '')] *)
Fixpoint strip_parens (s : string) : string :=
  match s with
  | EmptyString => EmptyString
  | String c s' =>
      if (Ascii.eqb c "(" || Ascii.eqb c ")")%bool then strip_parens s'
      else String c (strip_parens s')
  end.

(** [s.replace(/[-_]/g, '-')] *)
Fixpoint dash_underscores (s : string) : string :=
  match s with
  | EmptyString => EmptyString
  | String c s' =>
      String (if (Ascii.eqb c "-" || Ascii.eqb c "_")%bool then "-"%char else c)
             (dash_underscores s')
  end.

(** [l.join(sep)] *)
Definition join (sep : string) (l : list string) : string := String.concat sep l.

(** A natural number inside a template literal. *)
Definition show_nat (n : nat) : string := NilZero.string_of_uint (Nat.to_uint n).

(** [s.repeat(n)] *)
Fixpoint repeat_string (s : string) (n : nat) : string :=
  match n with
  | O => EmptyString
  | S n' => s +:+ repeat_string s n'
  end.

(** ** Circuit breaker ([utils/circuit-breaker.ts]) *)

Record CircuitBreakerOptions : Type := {
  failureThreshold : Z;
  resetTimeout : Z;
  monitoringPeriod : Z
}.

Inductive BreakerState : Type := CLOSED | OPEN | HALF_OPEN.

Record CircuitBreaker : Type := {
  options : CircuitBreakerOptions;
  failures : Z;
  lastFailureTime : option Z;
  state : BreakerState
}.

(** [new CircuitBreaker(options)] *)
Definition new_CircuitBreaker (opts : CircuitBreakerOptions) : CircuitBreaker :=
  {| options := opts; failures := 0; lastFailureTime := None; state := CLOSED |}.

Definition shouldAttemptReset (b : CircuitBreaker) (now : Z) : bool :=
  match lastFailureTime b with
  | None => false
  | Some t => now - t >=? resetTimeout (options b)
  end.

Definition onSuccess (b : CircuitBreaker) : CircuitBreaker :=
  {| options := options b; failures := 0;
     lastFailureTime := lastFailureTime b; state := CLOSED |}.

Definition onFailure (b : CircuitBreaker) (now : Z) : CircuitBreaker :=
  let n := failures b + 1 in
  {| options := options b; failures := n; lastFailureTime := Some now;
     state := if n >=? failureThreshold (options b) then OPEN else state b |}.

Definition set_state (b : CircuitBreaker) (s : BreakerState) : CircuitBreaker :=
  {| options := options b; failures := failures b;
     lastFailureTime := lastFailureTime b; state := s |}.

(** [execute] up to the call of [operation]: [None] is the throw of
    ['Circuit breaker is OPEN'], [Some b'] admits the call with the breaker
    left as [b']. *)
Definition execute_enter (b : CircuitBreaker) (now : Z) : option CircuitBreaker :=
  match state b with
  | OPEN => if shouldAttemptReset b now then Some (set_state b HALF_OPEN) else None
  | _ => Some b
  end.

(** [execute] after the [await]: [onSuccess] when the operation resolved,
    [onFailure] when it rejected. *)
Definition execute_settle (b : CircuitBreaker) (ok : bool) (now : Z) : CircuitBreaker :=
  if ok then onSuccess b else onFailure b now.

(** [circuitBreakers.external], as constructed at module load. *)
Definition external_options : CircuitBreakerOptions :=
  {| failureThreshold := 5; resetTimeout := 60000; monitoringPeriod := 10000 |}.

(** *** Calls in flight

    Calls of [execute] on one breaker can overlap: a second call may arrive
    while the operation of a first one is still awaited (another request, or
    the operation itself calling [execute] again).  A configuration holds the
    breaker and the number of admitted calls not yet settled. *)

Record Config : Type := { cb : CircuitBreaker; inflight : nat }.

Inductive event : Type :=
| Arrive (now : Z)
| Settle (ok : bool) (now : Z).

Definition step (c : Config) (e : event) : option Config :=
  match e with
  | Arrive now =>
      match execute_enter (cb c) now with
      | Some b => Some {| cb := b; inflight := S (inflight c) |}
      | None => Some c
      end
  | Settle ok now =>
      match inflight c with
      | O => None
      | S n => Some {| cb := execute_settle (cb c) ok now; inflight := n |}
      end
  end.

Fixpoint run (c : Config) (es : list event) : option Config :=
  match es with
  | [] => Some c
  | e :: es' => match step c e with Some c' => run c' es' | None => None end
  end.

Definition init_config (opts : CircuitBreakerOptions) : Config :=
  {| cb := new_CircuitBreaker opts; inflight := 0 |}.

Inductive reachable (opts : CircuitBreakerOptions) : Config -> Prop :=
| reachable_init : reachable opts (init_config opts)
| reachable_step c e c' :
    reachable opts c -> step c e = Some c' -> reachable opts c'.

(** ** Expiring cache ([utils/cache.ts]) *)

Record CacheItem : Type := { data : value; timestamp : Z; ttl : Z }.

Definition defaultTTL : Z := 5 * 60 * 1000.

(** [ttl || this.defaultTTL]: an omitted [ttl] and a [ttl] of 0 are both
    falsy. *)
Definition effective_ttl (ttl : option Z) : Z :=
  match ttl with
  | Some t => if t =? 0 then defaultTTL else t
  | None => defaultTTL
  end.

(** [cache.get(key)] at clock [now]: the value read ([null] when there is
    none) and the map afterwards. *)
Definition Cache_get (key : string) (now : Z) (c : gmap string CacheItem)
  : value * gmap string CacheItem :=
  match c !! key with
  | None => (VNull, c)
  | Some item =>
      if now >? timestamp item + ttl item
      then (VNull, delete key c)
      else (data item, c)
  end.

Definition Cache_set (key : string) (d : value) (t : option Z) (now : Z)
                     (c : gmap string CacheItem) : gmap string CacheItem :=
  <[ key := {| data := d; timestamp := now; ttl := effective_ttl t |} ]> c.

Definition Cache_clear (c : gmap string CacheItem) : gmap string CacheItem := ∅.

Definition Cache_delete (key : string) (c : gmap string CacheItem)
  : bool * gmap string CacheItem :=
  (bool_decide (is_Some (c !! key)), delete key c).

(** [cache.size()]: [this.cache.size], the number of keys of the map; it
    reads no clock and hands back the map as it found it. *)
Definition Cache_size (c : gmap string CacheItem) : nat * gmap string CacheItem :=
  (size c, c).

(** An entry of the map is expired at [now] when a [get] would purge it. *)
Definition expired (now : Z) (item : CacheItem) : Prop :=
  timestamp item + ttl item < now.

#[global] Instance expired_dec (now : Z) (item : CacheItem)
  : Decision (expired now item) := Z.lt_dec _ _.

(** ** The shared state and the computations over it *)

Inductive error : Type :=
| Error (message : string)
| TypeError.

Inductive outcome (T : Type) : Type :=
| Ok (v : T)
| Throw (e : error).
Arguments Ok {T} v.
Arguments Throw {T} e.

(** The module-level singletons ([circuitBreakers.external], [cache]) and the
    clock.  [invoked] is a ghost counter: the number of times some [execute]
    has called its [operation]. *)
Record World : Type := {
  clock : Z;
  external : CircuitBreaker;
  cache : gmap string CacheItem;
  invoked : nat
}.

Definition M (T : Type) : Type := World -> outcome T * World.

Definition ret {T : Type} (v : T) : M T := fun w => (Ok v, w).
Definition throw {T : Type} (e : error) : M T := fun w => (Throw e, w).
Definition with_external (w : World) (b : CircuitBreaker) : World :=
  {| clock := clock w; external := b; cache := cache w; invoked := invoked w |}.

Definition with_cache (w : World) (c : gmap string CacheItem) : World :=
  {| clock := clock w; external := external w; cache := c; invoked := invoked w |}.

Definition with_clock (w : World) (t : Z) : World :=
  {| clock := t; external := external w; cache := cache w; invoked := invoked w |}.

Definition count_invocation (w : World) : World :=
  {| clock := clock w; external := external w; cache := cache w;
     invoked := S (invoked w) |}.

(** The world when the server starts. *)
Definition boot (t : Z) : World :=
  {| clock := t; external := new_CircuitBreaker external_options;
     cache := ∅; invoked := 0 |}.

(** [circuitBreakers.external.execute(operation)], run to completion. The
    operation runs on the world the entry check left, and may itself call
    [execute]. *)
Definition execute {T : Type} (operation : M T) : M T :=
  fun w =>
    match execute_enter (external w) (clock w) with
    | None => (Throw (Error "Circuit breaker is OPEN"), w)
    | Some b =>
        match operation (count_invocation (with_external w b)) with
        | (Ok v, w') => (Ok v, with_external w' (onSuccess (external w')))
        | (Throw e, w') =>
            (Throw e, with_external w' (onFailure (external w') (clock w')))
        end
    end.

(** A code path that only uses the cache and the clock, as the tool handlers
    do, lifted to the world. *)
Definition on_cache {T : Type}
  (f : Z -> gmap string CacheItem -> outcome T * gmap string CacheItem) : M T :=
  fun w => let (r, c) := f (clock w) (cache w) in (r, with_cache w c).

(** ** Parameter validation ([utils/validation.ts])

    The schemas are built with the zod library (version 3); what follows is
    [parse] for the three field schemas and the [z.object] shapes this file
    declares, with the messages of zod's default error map. *)

Inductive field_schema : Type :=
| stringSchema            (* z.string().min(1).max(1000) *)
| optionalStringSchema    (* z.string().optional() *)
| anyOptional.            (* z.any().optional() *)

Record issue : Type := { path : list string; message : string }.

Definition parsed_type (v : value) : string :=
  match v with
  | VUndefined => "undefined"
  | VNull => "null"
  | VBool _ => "boolean"
  | VNum _ => "number"
  | VStr _ => "string"
  | VArr _ => "array"
  | VObj _ => "object"
  end.

Definition invalid_type (expected : string) (v : value) : string :=
  match v with
  | VUndefined => "Required"
  | _ => "Expected " +:+ expected +:+ ", received " +:+ parsed_type v
  end.

Definition parse_field (key : string) (sch : field_schema) (v : value) : list issue :=
  match sch, v with
  | stringSchema, VStr s =>
      (if (String.length s <? 1)%nat
       then [ {| path := [key];
                 message := "String must contain at least 1 character(s)" |} ]
       else [])
      ++
      (if (1000 <? String.length s)%nat
       then [ {| path := [key];
                 message := "String must contain at most 1000 character(s)" |} ]
       else [])
  | stringSchema, _ => [ {| path := [key]; message := invalid_type "string" v |} ]
  | optionalStringSchema, (VUndefined | VStr _) => []
  | optionalStringSchema, _ =>
      [ {| path := [key]; message := invalid_type "string" v |} ]
  | anyOptional, _ => []
  end.

(** [z.object(shape).parse(input)]: the parsed object (the keys of the shape
    that the input carries, other keys stripped) or the issues found. *)
Definition zod_parse (shape : list (string * field_schema)) (input : value)
  : value + list issue :=
  match input with
  | VObj fields =>
      match flat_map (fun '(k, sch) => parse_field k sch (get_prop input k)) shape with
      | [] =>
          inl (VObj (flat_map (fun '(k, _) =>
                                 match assoc k fields with
                                 | Some x => [(k, x)]
                                 | None => []
                                 end) shape))
      | issues => inr issues
      end
  | _ => inr [ {| path := []; message := invalid_type "object" input |} ]
  end.

Definition methodSchemas : list (string * list (string * field_schema)) :=
  [ ("get_anime_component", [("componentName", stringSchema)]);
    ("list_anime_components", [("category", optionalStringSchema)]);
    ("get_anime_example", [("exampleType", stringSchema)]);
    ("search_anime_examples", [("query", stringSchema)]);
    ("get_anime_docs", [("topic", stringSchema)]);
    ("list_resources", []);
    ("list_resource_templates", []);
    ("list_tools", []);
    ("list_prompts", []);
    ("read_resource", [("uri", stringSchema)]);
    ("get_prompt", [("name", stringSchema); ("arguments", anyOptional)]);
    ("call_tool", [("name", stringSchema); ("arguments", anyOptional)]) ].

Definition issue_text (e : issue) : string :=
  join "." (path e) +:+ ": " +:+ message e.

Definition validation_message (method : string) (issues : list issue) : string :=
  "Validation failed for " +:+ method +:+ ": " +:+ join ", " (map issue_text issues).

(** An inherited property of [methodSchemas] is truthy and has no [parse]:
    calling it is a [TypeError], which the [catch] rethrows. *)
Definition validateAndSanitizeParams (method : string) (params : value)
  : outcome value :=
  match object_get methodSchemas method with
  | NoProp => Ok (or_else params (VObj []))
  | ProtoProp _ => Throw TypeError
  | OwnProp shape =>
      match zod_parse shape (or_else params (VObj [])) with
      | inl v => Ok v
      | inr issues => Throw (Error (validation_message method issues))
      end
  end.

(** ** Tool responses *)

(** [{ content: [{ type: "text", text }] }] *)
Definition text_response (text : value) : value :=
  VObj [ ("content", VArr [ VObj [ ("type", VStr "text"); ("text", text) ] ]) ].

(** The [text] of the first content item of a response, when it is a string. *)
Definition response_text (r : value) : option string :=
  match get_prop r "content" with
  | VArr (item :: _) =>
      match get_prop item "text" with
      | VStr s => Some s
      | _ => None
      end
  | _ => None
  end.

(** The shape shared by the tool handlers: a function of the arguments, run
    against the clock and the cache. *)
Definition tool_handler : Type :=
  value -> Z -> gmap string CacheItem -> outcome value * gmap string CacheItem.

(** ** [get_anime_component] ([tools/components/get-anime-component.ts]) *)

Module GetAnimeComponent.

Record parameter : Type := {
  p_name : string;
  p_type : string;
  p_description : string;
  p_default : option string
}.

Record component : Type := {
  name : string;
  type : string;
  description : string;
  syntax : string;
  parameters : list parameter;
  properties : option (list string);
  methods : option (list string);
  callbacks : option (list string);
  example : string
}.

Definition param (n t d : string) : parameter :=
  {| p_name := n; p_type := t; p_description := d; p_default := None |}.
Definition param_default (n t d dflt : string) : parameter :=
  {| p_name := n; p_type := t; p_description := d; p_default := Some dflt |}.

Definition components : list (string * component) :=
  [ ("anime",
     {| name := "anime()";
        type := "Main Animation Function";
        description := "The primary function for creating animations in Anime.js";
        syntax := "anime(animationObject)";
        parameters :=
          [ param "targets" "string | Element | NodeList | Array"
                  "CSS selector or DOM elements to animate";
            param_default "duration" "number" "Animation duration in milliseconds" "1000";
            param_default "easing" "string | Array" "Easing function" "easeOutElastic";
            param_default "delay" "number | Function" "Delay before animation starts" "0";
            param_default "direction" "string" "Animation direction" "normal";
            param_default "loop" "boolean | number" "Loop animation" "false";
            param_default "autoplay" "boolean" "Start animation automatically" "true" ];
        properties := Some
          [ "translateX"; "translateY"; "translateZ"; "rotate"; "rotateX"; "rotateY"; "rotateZ";
            "scale"; "scaleX"; "scaleY"; "scaleZ"; "skewX"; "skewY"; "opacity";
            "backgroundColor"; "color"; "borderRadius"; "width"; "height"; "left"; "top" ];
        methods := Some
          [ "play()"; "pause()"; "restart()"; "reverse()"; "seek(time)"; "remove()" ];
        callbacks := Some
          [ "update"; "begin"; "complete"; "loopBegin"; "loopComplete"; "change";
            "changeBegin"; "changeComplete" ];
        example := "anime({
  targets: '.element',
  translateX: 250,
  rotate: '1turn',
  backgroundColor: '#FFF',
  duration: 2000,
  easing: 'easeInOutQuad',
  complete: () => console.log('Animation finished!')
});" |});
    ("timeline",
     {| name := "anime.timeline()";
        type := "Timeline Function";
        description := "Create and control a sequence of animations";
        syntax := "anime.timeline(parameters)";
        parameters :=
          [ param "easing" "string" "Default easing for all animations";
            param "duration" "number" "Default duration for all animations";
            param "direction" "string" "Default direction for all animations";
            param "loop" "boolean | number" "Loop the entire timeline";
            param_default "autoplay" "boolean" "Start timeline automatically" "true" ];
        properties := None;
        methods := Some
          [ "add(animation, offset)"; "play()"; "pause()"; "restart()"; "reverse()";
            "seek(time)" ];
        callbacks := None;
        example := "const tl = anime.timeline({
  easing: 'easeOutExpo',
  duration: 750
});

tl.add({
  targets: '.title',
  translateY: [-100, 0],
  opacity: [0, 1]
}).add({
  targets: '.subtitle',
  translateX: [-50, 0],
  opacity: [0, 1],
  offset: '-=600'
}).add({
  targets: '.button',
  scale: [0, 1],
  offset: '-=500'
});" |});
    ("stagger",
     {| name := "anime.stagger()";
        type := "Stagger Function";
        description := "Create staggered delays for multiple elements";
        syntax := "anime.stagger(value, options)";
        parameters :=
          [ param "value" "number" "Base delay value in milliseconds";
            param "grid" "Array" "[columns, rows] for grid-based stagger";
            param "from" "string | number | Array" "Starting point for stagger";
            param_default "direction" "string" "Stagger direction" "normal";
            param "easing" "string" "Easing function for stagger values" ];
        properties := None;
        methods := None;
        callbacks := None;
        example := "// Basic stagger
anime({
  targets: '.item',
  translateY: 50,
  delay: anime.stagger(100)
});

// Grid stagger
anime({
  targets: '.grid-item',
  scale: [0, 1],
  delay: anime.stagger(50, {
    grid: [10, 10],
    from: 'center'
  })
});" |});
    ("path",
     {| name := "anime.path()";
        type := "SVG Path Function";
        description := "Create path-based animations for SVG elements";
        syntax := "anime.path(pathElement)";
        parameters :=
          [ param "pathElement" "string | Element" "SVG path element or selector" ];
        properties := Some [ "translateX"; "translateY"; "rotate" ];
        methods := None;
        callbacks := None;
        example := "const path = anime.path('svg path');

anime({
  targets: '.element',
  translateX: path('x'),
  translateY: path('y'),
  rotate: path('angle'),
  duration: 3000,
  easing: 'easeInOutQuad'
});" |});
    ("random",
     {| name := "anime.random()";
        type := "Utility Function";
        description := "Generate random values for animations";
        syntax := "anime.random(min, max)";
        parameters :=
          [ param "min" "number" "Minimum value";
            param "max" "number" "Maximum value" ];
        properties := None;
        methods := None;
        callbacks := None;
        example := "anime({
  targets: '.element',
  translateX: () => anime.random(-100, 100),
  translateY: () => anime.random(-100, 100),
  scale: () => anime.random(0.5, 2),
  duration: 2000
});" |}) ].

Definition render_parameter (p : parameter) : string :=
  "- **" +:+ p_name p +:+ "** (" +:+ p_type p +:+ "): " +:+ p_description p
  +:+ match p_default p with
      | Some d => if String.eqb d "" then "" else " - Default: " +:+ bq +:+ d +:+ bq
      | None => ""
      end
  +:+ nl.

Definition render_list (heading : string) (l : option (list string)) : string :=
  match l with
  | Some items =>
      heading +:+ nl +:+ nl +:+ join nl (map (fun x => "- " +:+ x) items) +:+ nl +:+ nl
  | None => ""
  end.

Definition render_header (n t d s : string) : string :=
  "# " +:+ n +:+ nl +:+ nl
  +:+ "**Type:** " +:+ t +:+ nl +:+ nl
  +:+ "**Description:** " +:+ d +:+ nl +:+ nl
  +:+ "**Syntax:** " +:+ bq +:+ s +:+ bq +:+ nl +:+ nl.

Definition render_component (c : component) : string :=
  render_header (name c) (type c) (description c) (syntax c)
  +:+ "## Parameters" +:+ nl +:+ nl
  +:+ String.concat "" (map render_parameter (parameters c)) +:+ nl
  +:+ render_list "## Animatable Properties" (properties c)
  +:+ render_list "## Methods" (methods c)
  +:+ render_list "## Callbacks" (callbacks c)
  +:+ (if String.eqb (example c) "" then ""
       else "## Example" +:+ nl +:+ nl +:+ bq +:+ bq +:+ bq +:+ "javascript" +:+ nl
            +:+ example c +:+ nl +:+ bq +:+ bq +:+ bq +:+ nl).

(** [component.name] when [component] is an inherited member of
    [Object.prototype]: the function [Object] for [constructor], the
    prototype object itself (no [name]) for [__proto__], and otherwise a
    function named after the key. *)
Definition inherited_name (k : string) : string :=
  if String.eqb k "constructor" then "Object"
  else if String.eqb k "__proto__" then "undefined"
  else k.

(** An inherited member is truthy, so the not-found branch is skipped; it
    has no [type], [description], [syntax], [parameters], [properties],
    [methods], [callbacks] or [example]. *)
Definition getComponentInfo (componentName : string) : value :=
  let normalizedName := strip_parens (toLowerCase componentName) in
  match object_get components normalizedName with
  | NoProp =>
      text_response (VStr
        ("Component " +:+ dq +:+ componentName +:+ dq
         +:+ " not found. Available components: "
         +:+ join ", " (object_keys components)))
  | OwnProp component => text_response (VStr (render_component component))
  | ProtoProp k =>
      text_response (VStr
        (render_header (inherited_name k) "undefined" "undefined" "undefined"))
  end.

(** [componentName.toLowerCase()] is a [TypeError] unless [componentName] is
    a string. *)
Definition handleGetAnimeComponent : tool_handler :=
  fun params now c =>
    match get_prop params "componentName" with
    | VStr componentName =>
        let cacheKey := "anime-component-" +:+ toLowerCase componentName in
        let (cached, c1) := Cache_get cacheKey now c in
        if truthy cached then (Ok cached, c1)
        else
          let componentInfo := getComponentInfo componentName in
          (Ok componentInfo,
           Cache_set cacheKey componentInfo (Some (30 * 60 * 1000)) now c1)
    | _ => (Throw TypeError, c)
    end.

End GetAnimeComponent.

(** ** [search_anime_examples] ([tools/examples/search-anime-examples.ts]) *)

Module SearchAnimeExamples.

Record example : Type := {
  id : string;
  title : string;
  description : string;
  category : string;
  tags : list string;
  code : string
}.

Definition examples : list example :=
  [
    {| id := "basic-transform";
       title := "Basic Transform Animation";
       description := "Simple transform animation with translate, rotate, and scale";
       category := "Basic";
       tags := [ "transform"; "translate"; "rotate"; "scale"; "basic"; "simple" ];
       code := "anime({
  targets: '.element',
  translateX: 250,
  rotate: '1turn',
  scale: 1.5,
  duration: 2000
});" |};
    {| id := "timeline-sequence";
       title := "Timeline Sequence Animation";
       description := "Sequential animations using timeline with offset control";
       category := "Timeline";
       tags := [ "timeline"; "sequence"; "sequential"; "offset"; "chain" ];
       code := "const tl = anime.timeline();
tl.add({
  targets: '.title',
  translateY: [-100, 0]
}).add({
  targets: '.subtitle',
  translateX: [-50, 0],
  offset: '-=600'
});" |};
    {| id := "stagger-grid";
       title := "Staggered Grid Animation";
       description := "Grid-based stagger animation from center outward";
       category := "Stagger";
       tags := [ "stagger"; "grid"; "delay"; "multiple"; "elements" ];
       code := "anime({
  targets: '.grid .item',
  scale: [0, 1],
  delay: anime.stagger(100, {
    grid: [8, 6],
    from: 'center'
  })
});" |};
    {| id := "svg-path";
       title := "SVG Path Animation";
       description := "Animate along SVG paths and draw strokes";
       category := "SVG";
       tags := [ "svg"; "path"; "stroke"; "draw"; "morphing"; "vector" ];
       code := "anime({
  targets: 'path',
  strokeDashoffset: [anime.setDashoffset, 0],
  duration: 1500
});" |};
    {| id := "morphing";
       title := "CSS Property Morphing";
       description := "Animate CSS properties for shape and color morphing";
       category := "Morphing";
       tags := [ "morph"; "css"; "properties"; "shape"; "color"; "size" ];
       code := "anime({
  targets: '.box',
  width: [50, 200],
  backgroundColor: '#FF6B6B',
  borderRadius: ['0%', '50%'],
  duration: 2000
});" |};
    {| id := "keyframes";
       title := "Keyframes Animation";
       description := "Complex animations using keyframes with different timings";
       category := "Advanced";
       tags := [ "keyframes"; "complex"; "timing"; "advanced"; "multiple" ];
       code := "anime({
  targets: '.element',
  keyframes: [
    {translateY: -40, duration: 300},
    {rotateZ: 360, duration: 800},
    {translateY: 0, duration: 800}
  ]
});" |};
    {| id := "text-animation";
       title := "Text Animation";
       description := "Animate text letter by letter with stagger effects";
       category := "Text";
       tags := [ "text"; "letters"; "typography"; "stagger"; "writing" ];
       code := ("anime({
  targets: '.text .letter',
  translateY: [" +:+ dq +:+ "1.1em" +:+ dq +:+ ", 0],
  delay: (el, i) => 50 * i
});") |};
    {| id := "elastic-bounce";
       title := "Elastic and Bounce Effects";
       description := "Using elastic and bounce easing functions for dynamic effects";
       category := "Easing";
       tags := [ "elastic"; "bounce"; "easing"; "spring"; "physics" ];
       code := "anime({
  targets: '.element',
  translateX: 300,
  easing: 'easeOutElastic(1, .8)',
  duration: 1500
});" |};
    {| id := "loading-spinner";
       title := "Loading Spinner Animation";
       description := "Create animated loading spinners and loaders";
       category := "UI";
       tags := [ "loading"; "spinner"; "loader"; "ui"; "rotation" ];
       code := "anime({
  targets: '.spinner',
  rotate: '1turn',
  duration: 1000,
  loop: true,
  easing: 'linear'
});" |};
    {| id := "button-hover";
       title := "Button Hover Effects";
       description := "Interactive button animations on hover and click";
       category := "Interactive";
       tags := [ "button"; "hover"; "click"; "interactive"; "ui" ];
       code := "const button = document.querySelector('.button');
button.addEventListener('mouseenter', () => {
  anime({
    targets: button,
    scale: 1.1,
    duration: 300
  });
});" |};
    {| id := "card-flip";
       title := "Card Flip Animation";
       description := "3D card flip effects with perspective transforms";
       category := "3D";
       tags := [ "card"; "flip"; "3d"; "perspective"; "transform" ];
       code := "anime({
  targets: '.card',
  rotateY: 180,
  duration: 800,
  easing: 'easeInOutQuart'
});" |};
    {| id := "particles";
       title := "Particle System";
       description := "Create particle effects with random movements";
       category := "Effects";
       tags := [ "particles"; "random"; "effects"; "system"; "dots" ];
       code := "anime({
  targets: '.particle',
  translateX: () => anime.random(-500, 500),
  translateY: () => anime.random(-500, 500),
  scale: () => anime.random(0.1, 2),
  duration: 3000
});" |} ].

(** The predicate of [examples.filter]; the tags are compared as written,
    the other fields lower-cased. *)
Definition matches (queryLower : string) (example : example) : bool :=
  includes (toLowerCase (title example)) queryLower
  || includes (toLowerCase (description example)) queryLower
  || includes (toLowerCase (category example)) queryLower
  || existsb (fun tag => includes tag queryLower) (tags example)
  || includes (toLowerCase (code example)) queryLower.

Definition render_example (index : nat) (example : example) : string :=
  "## " +:+ show_nat (index + 1) +:+ ". " +:+ title example +:+ nl
  +:+ "**Category:** " +:+ category example +:+ nl
  +:+ "**Description:** " +:+ description example +:+ nl
  +:+ "**Tags:** " +:+ join ", " (tags example) +:+ nl +:+ nl
  +:+ "**Code Preview:**" +:+ nl +:+ bq +:+ bq +:+ bq +:+ "javascript" +:+ nl
  +:+ code example +:+ nl +:+ bq +:+ bq +:+ bq +:+ nl +:+ nl
  +:+ "*Use " +:+ bq +:+ "get_anime_example" +:+ bq +:+ " with type "
  +:+ bq +:+ id example +:+ bq +:+ " for complete example*" +:+ nl +:+ nl
  +:+ "---" +:+ nl +:+ nl.

(** [matchedExamples.forEach((example, index) => content += ...)], from
    position [index] on. *)
Fixpoint render_examples (index : nat) (l : list example) : string :=
  match l with
  | [] => ""
  | example :: l' => render_example index example +:+ render_examples (S index) l'
  end.

Definition no_match_text (query : string) : string :=
  "No examples found for " +:+ dq +:+ query +:+ dq
  +:+ ". Try searching for terms like:" +:+ nl
  +:+ "- transform, rotate, scale" +:+ nl
  +:+ "- timeline, sequence" +:+ nl
  +:+ "- stagger, grid" +:+ nl
  +:+ "- svg, path" +:+ nl
  +:+ "- text, letters" +:+ nl
  +:+ "- elastic, bounce" +:+ nl
  +:+ "- morphing, keyframes".

Definition searchExamples (query : string) : value :=
  let queryLower := toLowerCase query in
  let matchedExamples := List.filter (matches queryLower) examples in
  match matchedExamples with
  | [] => text_response (VStr (no_match_text query))
  | _ =>
      text_response (VStr
        ("# Anime.js Examples Search Results" +:+ nl +:+ nl
         +:+ "Found " +:+ show_nat (List.length matchedExamples)
         +:+ " example(s) for " +:+ dq +:+ query +:+ dq +:+ ":" +:+ nl +:+ nl
         +:+ render_examples 0 matchedExamples))
  end.

Definition handleSearchAnimeExamples : tool_handler :=
  fun params now c =>
    match get_prop params "query" with
    | VStr query =>
        let cacheKey := "anime-examples-search-" +:+ toLowerCase query in
        let (cached, c1) := Cache_get cacheKey now c in
        if truthy cached then (Ok cached, c1)
        else
          let results := searchExamples query in
          (Ok results, Cache_set cacheKey results (Some (15 * 60 * 1000)) now c1)
    | _ => (Throw TypeError, c)
    end.

End SearchAnimeExamples.

(** ** [get_anime_docs] ([tools/repository/get-anime-docs.ts]) *)

Module GetAnimeDocs.

Record doc : Type := { title : string; content : string }.

Section Docs.

(** The Markdown literal stored as [content] under each key of [docs]; the
    six literals are static text and are taken as given. *)
Variable doc_content : string -> string.

Definition docs : list (string * doc) :=
  [ ("getting-started",
     {| title := "Getting Started with Anime.js";
        content := doc_content "getting-started" |});
    ("animation-controls",
     {| title := "Animation Controls"; content := doc_content "animation-controls" |});
    ("easing",
     {| title := "Easing Functions"; content := doc_content "easing" |});
    ("performance",
     {| title := "Performance Optimization"; content := doc_content "performance" |});
    ("timeline",
     {| title := "Timeline and Sequencing"; content := doc_content "timeline" |});
    ("stagger",
     {| title := "Stagger Effects"; content := doc_content "stagger" |}) ].

Definition not_found_text (topic : string) : string :=
  "Documentation for " +:+ dq +:+ topic +:+ dq +:+ " not found. Available topics:"
  +:+ nl +:+ nl
  +:+ join nl (map (fun key => "- " +:+ key) (object_keys docs))
  +:+ nl +:+ nl
  +:+ "Try searching for topics like: getting-started, animation-controls, easing, performance, timeline, stagger".

(** An inherited member of [Object.prototype] is truthy and has no
    [content]: the response then carries [text: undefined]. *)
Definition getDocumentation (topic : string) : value :=
  let normalizedTopic := dash_underscores (toLowerCase topic) in
  match object_get docs normalizedTopic with
  | NoProp => text_response (VStr (not_found_text topic))
  | OwnProp doc => text_response (VStr (content doc))
  | ProtoProp _ => text_response VUndefined
  end.

Definition handleGetAnimeDocs : tool_handler :=
  fun params now c =>
    match get_prop params "topic" with
    | VStr topic =>
        let cacheKey := "anime-docs-" +:+ toLowerCase topic in
        let (cached, c1) := Cache_get cacheKey now c in
        if truthy cached then (Ok cached, c1)
        else
          let documentation := getDocumentation topic in
          (Ok documentation,
           Cache_set cacheKey documentation (Some (60 * 60 * 1000)) now c1)
    | _ => (Throw TypeError, c)
    end.

End Docs.

End GetAnimeDocs.

(** ** Request handlers ([handler.ts]) *)

(** The request kinds for which [setupHandlers] registers a handler, under
    the method name each passes to [handleRequest]. *)
Inductive method : Type :=
| list_resources
| list_resource_templates
| list_tools
| read_resource
| list_prompts
| get_prompt
| call_tool.

Definition method_name (m : method) : string :=
  match m with
  | list_resources => "list_resources"
  | list_resource_templates => "list_resource_templates"
  | list_tools => "list_tools"
  | read_resource => "read_resource"
  | list_prompts => "list_prompts"
  | get_prompt => "get_prompt"
  | call_tool => "call_tool"
  end.

(** The [catch] of [handleRequest] logs and rethrows. *)
Definition handleRequest {T : Type} (method : string) (params : value)
                         (handler : value -> M T) : M T :=
  fun w =>
    match validateAndSanitizeParams method params with
    | Throw e => (Throw e, w)
    | Ok validatedParams => execute (handler validatedParams) w
    end.

(** A request arriving when the clock reads [t]. *)
Definition at_time {T : Type} (t : Z) (m : M T) : M T :=
  fun w => m (with_clock w t).

Section Handlers.

(** Parts of the server that the handlers reach and that are taken as given:
    the documentation literals, the two tool handlers and the resource and
    prompt code no property below looks into, the static payloads of the
    list methods, and what calling an inherited member of
    [Object.prototype] as a function does. *)
Variable doc_content : string -> string.
Variables handleListAnimeComponents handleGetAnimeExample : tool_handler.
Variable call_inherited : string -> value -> outcome value.
Variables resources resourceTemplates registeredTools prompts : value.
Variables read_resource_handler get_prompt_handler : value -> M value.

(** [toolHandlers] of [tools/index.ts]. *)
Definition toolHandlers : list (string * tool_handler) :=
  [ ("get_anime_component", GetAnimeComponent.handleGetAnimeComponent);
    ("list_anime_components", handleListAnimeComponents);
    ("get_anime_example", handleGetAnimeExample);
    ("search_anime_examples", SearchAnimeExamples.handleSearchAnimeExamples);
    ("get_anime_docs", GetAnimeDocs.handleGetAnimeDocs doc_content) ].

(** The handler registered for [CallToolRequestSchema]: the tool runs inside
    a second [execute] on the same breaker. *)
Definition call_tool_handler (validatedParams : value) : M value :=
  let name := get_prop validatedParams "name" in
  let params := get_prop validatedParams "arguments" in
  match name with
  | VStr n =>
      if truthy name then
        match object_get toolHandlers n with
        | NoProp => throw (Error ("Tool not found: " +:+ n))
        | OwnProp handler =>
            execute (on_cache (handler (or_else params (VObj []))))
        | ProtoProp k =>
            execute (fun w => (call_inherited k (or_else params (VObj [])), w))
        end
      else throw (Error "Tool name is required")
  | _ => throw (Error "Tool name is required")
  end.

Definition handler_of (m : method) : value -> M value :=
  match m with
  | list_resources => fun _ => ret (VObj [("resources", resources)])
  | list_resource_templates =>
      fun _ => ret (VObj [("resourceTemplates", resourceTemplates)])
  | list_tools => fun _ => ret (VObj [("tools", registeredTools)])
  | read_resource => read_resource_handler
  | list_prompts => fun _ => ret (VObj [("prompts", prompts)])
  | get_prompt => get_prompt_handler
  | call_tool => call_tool_handler
  end.

(** What the server does with one inbound request. *)
Definition serve (m : method) (params : value) : M value :=
  handleRequest (method_name m) params (handler_of m).

End Handlers.

(** A tool call [{ name, arguments }]. *)
Definition tool_call (name : string) (arguments : value) : value :=
  VObj [("name", VStr name); ("arguments", arguments)].

(** ** Vocabulary of the properties *)

(** What every reachable configuration satisfies: the options never change,
    a breaker that is not CLOSED has reached the threshold, and HALF_OPEN
    only lasts while an admitted call is pending. *)
Definition breaker_inv (opts : CircuitBreakerOptions) (c : Config) : Prop :=
  options (cb c) = opts
  /\ (state (cb c) <> CLOSED -> failures (cb c) >= failureThreshold opts)
  /\ (state (cb c) = HALF_OPEN -> (1 <= inflight c)%nat).

(** Calls of [execute], one after the other, on operations that reject with
    the given errors, each made when the clock reads the given time. *)
Fixpoint failing_calls (l : list (Z * error)) (w : World) : World :=
  match l with
  | [] => w
  | (t, e) :: l' => failing_calls l' (snd (at_time t (execute (@throw unit e)) w))
  end.

(** One call that arrives at [t_in] and whose operation settles at [t_out]. *)
Definition call_events (ok : bool) (t_in t_out : Z) : list event :=
  [ Arrive t_in; Settle ok t_out ].


(** Five failing calls in a row, and the configuration they lead to under
    the options of [circuitBreakers.external]. *)
Definition five_failures : list event :=
  call_events false 0 1 ++ call_events false 2 3 ++ call_events false 4 5
  ++ call_events false 6 7 ++ call_events false 8 9.

Definition opened_config : Config :=
  {| cb := {| options := external_options; failures := 5;
              lastFailureTime := Some 9; state := OPEN |};
     inflight := 0 |}.

(** The trial call after the cooldown, still pending. *)
Definition trial_pending : Config :=
  {| cb := {| options := external_options; failures := 5;
              lastFailureTime := Some 9; state := HALF_OPEN |};
     inflight := 1 |}.

(** The stored entries that a read at [now] would still serve, and those it
    would purge. *)
Definition live_entries (now : Z) (c : gmap string CacheItem)
  : gmap string CacheItem :=
  filter (fun kv => ~ expired now kv.2) c.

Definition expired_entries (now : Z) (c : gmap string CacheItem)
  : gmap string CacheItem :=
  filter (fun kv => expired now kv.2) c.

(** Two characters are the same when case is ignored: they are the same
    character, or one is a capital letter [A]-[Z] and the other the small
    letter that stands 32 code points above it. *)
Definition same_letter (a b : ascii) : bool :=
  let m := nat_of_ascii a in
  let n := nat_of_ascii b in
  ((m =? n)
   || ((65 <=? m) && (m <=? 90) && (n =? m + 32))
   || ((65 <=? n) && (n <=? 90) && (m =? n + 32)))%nat.

(** [a] and [b] are the same text when case is ignored. *)
Fixpoint ci_equal (a b : string) : bool :=
  match a, b with
  | EmptyString, EmptyString => true
  | String x a', String y b' => same_letter x y && ci_equal a' b'
  | _, _ => false
  end.





(** The text of a response that is known to carry one. *)
Definition text_of (r : value) : string :=
  match response_text r with Some s => s | None => "" end.

(** A handler that rejects whatever the clock and the cache are. *)
Definition always_throws (handler : tool_handler) (args : value) : Prop :=
  forall now c, exists e, fst (handler args now c) = Throw e.

(** Requests served one after the other, each arriving at its time. *)
Fixpoint after_requests (srv : method -> value -> M value)
                        (l : list (Z * (method * value))) (w : World) : World :=
  match l with
  | [] => w
  | (t, (m, params)) :: l' =>
      after_requests srv l' (snd (at_time t (srv m params) w))
  end.

(** The own keys of [toolHandlers]. *)
Definition tool_names : list string :=
  [ "get_anime_component"; "list_anime_components"; "get_anime_example";
    "search_anime_examples"; "get_anime_docs" ].

(** A server instance for concrete runs: the parts left open by the
    embedding are filled with handlers that return [null]. *)
Definition plain_tool : tool_handler := fun _ _ c => (Ok VNull, c).

Definition plain_serve : method -> value -> M value :=
  serve (fun _ => "") plain_tool plain_tool (fun _ _ => Throw TypeError)
        VNull VNull VNull VNull (fun _ => ret VNull) (fun _ => ret VNull).

(** The world after boot and five failing calls, one millisecond after the
    last failure. *)
Definition open_world : World :=
  with_clock
    (failing_calls [(1, TypeError); (3, TypeError); (5, TypeError);
                    (7, TypeError); (9, TypeError)] (boot 0))
    10.

(** * The rest of the server *)

(** ** [sanitizeString] ([utils/validation.ts]) *)

(** [String.prototype.replace] with a global pattern whose matches are never
    empty: [m s] is the length of the match of the pattern at the start of
    [s], if there is one; matches are taken leftmost and do not overlap.
    [skip] is the number of characters of the current match still to drop. *)
Fixpoint replace_all (m : string -> option nat) (s : string) (skip : nat) : string :=
  match s with
  | EmptyString => EmptyString
  | String c s' =>
      match skip with
      | S k => replace_all m s' k
      | O =>
          match m s with
          | Some (S n) => replace_all m s' n
          | _ => String c (replace_all m s' 0)
          end
      end
  end.

(** [s] starts with [lit], letters compared without case ([lit] is written
    in lower case): the rest of [s] after it. *)
Fixpoint starts_with_ci (lit s : string) : option string :=
  match lit with
  | EmptyString => Some s
  | String l lit' =>
      match s with
      | EmptyString => None
      | String c s' =>
          if Ascii.eqb (lower_char c) l then starts_with_ci lit' s' else None
      end
  end.

(** [[^>]*>]: the number of characters up to and including the first [>]. *)
Fixpoint up_to_gt (s : string) : option nat :=
  match s with
  | EmptyString => None
  | String c s' =>
      if Ascii.eqb c ">" then Some 1%nat
      else match up_to_gt s' with Some n => Some (S n) | None => None end
  end.

(** A line terminator, which [.] does not match. *)
Definition line_terminator (c : ascii) : bool :=
  (Ascii.eqb c (ascii_of_nat 10) || Ascii.eqb c (ascii_of_nat 13))%bool.

(** [.*?<\/script>], case ignored: the number of characters up to and
    including the first closing tag, provided no line terminator comes
    before it. *)
Fixpoint up_to_close (s : string) : option nat :=
  match starts_with_ci "</script>" s with
  | Some _ => Some 9%nat
  | None =>
      match s with
      | EmptyString => None
      | String c s' =>
          if line_terminator c then None
          else match up_to_close s' with Some n => Some (S n) | None => None end
      end
  end.

(** [s] without its first [n] characters. *)
Fixpoint drop_chars (n : nat) (s : string) : string :=
  match n, s with
  | O, _ => s
  | S n', String _ s' => drop_chars n' s'
  | S _, EmptyString => EmptyString
  end.

(** The match of [/<script[^>]*>.*?<\/script>/i] at the start of [s]. *)
Definition script_match (s : string) : option nat :=
  match starts_with_ci "<script" s with
  | None => None
  | Some r =>
      match up_to_gt r with
      | None => None
      | Some n =>
          match up_to_close (drop_chars n r) with
          | None => None
          | Some k => Some (7 + n + k)%nat
          end
      end
  end.

(** The match of [/<[^>]*>/] at the start of [s]. *)
Definition tag_match (s : string) : option nat :=
  match s with
  | String c r =>
      if Ascii.eqb c "<"
      then match up_to_gt r with Some n => Some (S n) | None => None end
      else None
  | EmptyString => None
  end.

(** White space, as [trim] strips it. *)
Definition white_space (c : ascii) : bool :=
  let n := nat_of_ascii c in
  (((9 <=? n) && (n <=? 13)) || (n =? 32))%nat.

Fixpoint trim_start (s : string) : string :=
  match s with
  | String c s' => if white_space c then trim_start s' else s
  | EmptyString => EmptyString
  end.

(** [s] without its trailing white space. *)
Fixpoint trim_end (s : string) : string :=
  match s with
  | EmptyString => EmptyString
  | String c s' =>
      match trim_end s' with
      | EmptyString => if white_space c then EmptyString else String c EmptyString
      | r => String c r
      end
  end.

Definition trim (s : string) : string := trim_end (trim_start s).

Definition sanitizeString (input : string) : string :=
  String.substring 0 1000
    (trim (replace_all tag_match (replace_all script_match input 0) 0)).


(** ** Values as text *)

(** An integer in decimal, as a template literal prints it. *)
Definition show_Z (n : Z) : string :=
  if n <? 0 then "-" +:+ show_nat (Z.to_nat (- n)) else show_nat (Z.to_nat n).

(** [String(v)], the conversion a template literal and a property key
    apply; numbers are integers. *)
Fixpoint to_string (v : value) : string :=
  match v with
  | VUndefined => "undefined"
  | VNull => "null"
  | VBool b => if b then "true" else "false"
  | VNum n => show_Z n
  | VStr s => s
  | VArr items =>
      join "," (map (fun x => match x with
                              | VUndefined | VNull => ""
                              | _ => to_string x
                              end) items)
  | VObj _ => "[object Object]"
  end.

Definition upper_char (c : ascii) : ascii :=
  let n := nat_of_ascii c in
  if ((97 <=? n) && (n <=? 122))%nat then ascii_of_nat (n - 32) else c.

(** [s.charAt(0).toUpperCase() + s.slice(1)] *)
Definition capitalize (s : string) : string :=
  match s with
  | EmptyString => EmptyString
  | String c r => String (upper_char c) r
  end.

(** [s] starts with [p]: the rest of [s] after it. *)
Fixpoint strip_prefix (p s : string) : option string :=
  match p with
  | EmptyString => Some s
  | String a p' =>
      match s with
      | EmptyString => None
      | String c s' => if Ascii.eqb a c then strip_prefix p' s' else None
      end
  end.

Fixpoint has_line_terminator (s : string) : bool :=
  match s with
  | EmptyString => false
  | String c s' => (line_terminator c || has_line_terminator s')%bool
  end.

(** ** What is taken as given

    The long static texts of the server (Markdown and code literals), and
    the members of [Object.prototype] that a lookup on an object literal can
    return: [inherited_value k] is the member [k] as a value, and
    [call_inherited k arg] is what calling it as a plain function does. *)
Record Given : Type := {
  txt_docs : string -> string;
  txt_tutorial : string -> string;
  txt_usage : string -> string;
  txt_performance : string;
  txt_component_doc : string -> string;
  txt_example_code : string -> string;
  txt_components_resource : string;
  ex_code : string -> string;
  ex_html : string -> string;
  ex_css : string -> string;
  tools_payload : value;
  prompts_payload : value;
  inherited_value : string -> value;
  inherited_call : string -> value -> outcome value
}.

(** ** [list_anime_components] ([tools/components/list-anime-components.ts]) *)

Module ListAnimeComponents.

Record component : Type := {
  name : string;
  category : string;
  description : string;
  syntax : string;
  features : list string
}.

Definition getAllComponents : list component :=
  [
    {| name := "anime()";
       category := "core";
       description := "Main animation function for creating animations";
       syntax := "anime(animationObject)";
       features := [ "Element targeting"; "Property animation"; "Easing functions"; "Callbacks" ] |};
    {| name := "anime.timeline()";
       category := "timeline";
       description := "Create and control sequences of animations";
       syntax := "anime.timeline(parameters)";
       features := [ "Sequential animations"; "Timeline control"; "Offset management"; "Nested timelines" ] |};
    {| name := "anime.stagger()";
       category := "utilities";
       description := "Create staggered delays for multiple elements";
       syntax := "anime.stagger(value, options)";
       features := [ "Grid-based stagger"; "Direction control"; "Custom starting points"; "Easing functions" ] |};
    {| name := "anime.path()";
       category := "svg";
       description := "Create path-based animations for SVG elements";
       syntax := "anime.path(pathElement)";
       features := [ "SVG path following"; "Position tracking"; "Rotation alignment"; "Custom properties" ] |};
    {| name := "anime.random()";
       category := "utilities";
       description := "Generate random values for animations";
       syntax := "anime.random(min, max)";
       features := [ "Random value generation"; "Range specification"; "Function callbacks"; "Dynamic properties" ] |};
    {| name := "anime.set()";
       category := "utilities";
       description := "Set CSS properties without animation";
       syntax := "anime.set(targets, properties)";
       features := [ "Instant property setting"; "No animation"; "Multiple targets"; "CSS property support" ] |};
    {| name := "anime.get()";
       category := "utilities";
       description := "Get current CSS property values";
       syntax := "anime.get(targets, property)";
       features := [ "Property value retrieval"; "Multiple targets"; "Computed values"; "Transform values" ] |};
    {| name := "anime.remove()";
       category := "utilities";
       description := "Remove animations from elements";
       syntax := "anime.remove(targets)";
       features := [ "Animation cleanup"; "Memory management"; "Multiple targets"; "Instant removal" ] |} ].

Definition formatComponent (comp : component) : string :=
  "### " +:+ name comp +:+ nl
  +:+ "**Description:** " +:+ description comp +:+ nl
  +:+ "**Syntax:** " +:+ bq +:+ syntax comp +:+ bq +:+ nl
  +:+ "**Features:** " +:+ join ", " (features comp) +:+ nl +:+ nl.

(** One group of the unfiltered listing: nothing when the category has no
    component. *)
Definition formatGroup (components : list component) (cat : string) : string :=
  let categoryComponents :=
    List.filter (fun comp => String.eqb (category comp) cat) components in
  match categoryComponents with
  | [] => ""
  | _ =>
      "## " +:+ capitalize cat +:+ " ("
      +:+ show_nat (List.length categoryComponents) +:+ ")" +:+ nl +:+ nl
      +:+ String.concat "" (map formatComponent categoryComponents) +:+ nl
  end.

(** [formatComponentsList(components, category)]; a truthy [category] is a
    string when this is reached. *)
Definition formatComponentsList (components : list component) (cat : value) : string :=
  "# Anime.js Components"
  +:+ (if truthy cat then " - " +:+ capitalize (to_string cat) +:+ " Category" else "")
  +:+ nl +:+ nl
  +:+ (if truthy cat
       then "Showing " +:+ show_nat (List.length components)
            +:+ " component(s) in the " +:+ dq +:+ to_string cat +:+ dq
            +:+ " category." +:+ nl +:+ nl
       else "Total: " +:+ show_nat (List.length components)
            +:+ " components available" +:+ nl +:+ nl)
  +:+ (if truthy cat
       then String.concat "" (map formatComponent components)
       else String.concat ""
              (map (formatGroup components) ["core"; "timeline"; "utilities"; "svg"]))
  +:+ (match components with
       | [] => "No components found for category " +:+ dq +:+ to_string cat +:+ dq
               +:+ ". Available categories: core, timeline, utilities, svg" +:+ nl
       | _ => ""
       end).

(** The components a truthy string category selects. *)
Definition filterComponents (cat : string) : list component :=
  List.filter (fun comp => String.eqb (toLowerCase (category comp)) (toLowerCase cat))
              getAllComponents.

(** A truthy category that is not a string fails at [category.toLowerCase()]
    in the filter, after the cache was read. *)
Definition handleListAnimeComponents : tool_handler :=
  fun params now c =>
    let cat := get_prop params "category" in
    let cacheKey := "anime-components-list-" +:+ to_string (or_else cat (VStr "all")) in
    let (cached, c1) := Cache_get cacheKey now c in
    if truthy cached then (Ok cached, c1)
    else if truthy cat then
      match cat with
      | VStr s =>
          let result :=
            text_response (VStr (formatComponentsList (filterComponents s) cat)) in
          (Ok result, Cache_set cacheKey result (Some (60 * 60 * 1000)) now c1)
      | _ => (Throw TypeError, c1)
      end
    else
      let result := text_response (VStr (formatComponentsList getAllComponents cat)) in
      (Ok result, Cache_set cacheKey result (Some (60 * 60 * 1000)) now c1).

End ListAnimeComponents.

(** ** [get_anime_example] ([tools/examples/get-anime-example.ts]) *)

Module GetAnimeExample.

Record example : Type := {
  title : string;
  description : string;
  category : string;
  code : string;
  html : string;
  css : string
}.

Section Examples.

Variable given : Given.

Definition examples : list (string * example) :=
  [
    ("basic-transform",
     {| title := "Basic Transform Animation";
        description := "Simple transform animation with translate, rotate, and scale";
        category := "Basic";
        code := ex_code given "basic-transform";
        html := ex_html given "basic-transform";
        css := ex_css given "basic-transform" |});
    ("timeline-sequence",
     {| title := "Timeline Sequence Animation";
        description := "Sequential animations using timeline with offset control";
        category := "Timeline";
        code := ex_code given "timeline-sequence";
        html := ex_html given "timeline-sequence";
        css := ex_css given "timeline-sequence" |});
    ("stagger-grid",
     {| title := "Staggered Grid Animation";
        description := "Grid-based stagger animation from center outward";
        category := "Stagger";
        code := ex_code given "stagger-grid";
        html := ex_html given "stagger-grid";
        css := ex_css given "stagger-grid" |});
    ("svg-path",
     {| title := "SVG Path Animation";
        description := "Animate along SVG paths and morph shapes";
        category := "SVG";
        code := ex_code given "svg-path";
        html := ex_html given "svg-path";
        css := ex_css given "svg-path" |});
    ("morphing",
     {| title := "CSS Property Morphing";
        description := "Animate CSS properties for shape and color morphing";
        category := "Morphing";
        code := ex_code given "morphing";
        html := ex_html given "morphing";
        css := ex_css given "morphing" |});
    ("keyframes",
     {| title := "Keyframes Animation";
        description := "Complex animations using keyframes with different timings";
        category := "Advanced";
        code := ex_code given "keyframes";
        html := ex_html given "keyframes";
        css := ex_css given "keyframes" |});
    ("text-animation",
     {| title := "Text Animation";
        description := "Animate text letter by letter with stagger effects";
        category := "Text";
        code := ex_code given "text-animation";
        html := ex_html given "text-animation";
        css := ex_css given "text-animation" |});
    ("elastic-bounce",
     {| title := "Elastic and Bounce Effects";
        description := "Using elastic and bounce easing functions for dynamic effects";
        category := "Easing";
        code := ex_code given "elastic-bounce";
        html := ex_html given "elastic-bounce";
        css := ex_css given "elastic-bounce" |}) ].

Definition usage_notes : string :=
  "## Usage Notes" +:+ nl
  +:+ "- Include Anime.js library: " +:+ bq
  +:+ "<script src=" +:+ dq
  +:+ "https://cdnjs.cloudflare.com/ajax/libs/animejs/3.2.1/anime.min.js"
  +:+ dq +:+ "></script>" +:+ bq +:+ nl
  +:+ "- Or via npm: " +:+ bq +:+ "npm install animejs" +:+ bq +:+ " then "
  +:+ bq +:+ "import anime from 'animejs/lib/anime.es.js'" +:+ bq +:+ nl.

Definition fence (lang body : string) : string :=
  bq +:+ bq +:+ bq +:+ lang +:+ nl +:+ body +:+ nl +:+ bq +:+ bq +:+ bq +:+ nl +:+ nl.

Definition render_page (t cat d js : string) : string :=
  "# " +:+ t +:+ nl +:+ nl
  +:+ "**Category:** " +:+ cat +:+ nl +:+ nl
  +:+ "**Description:** " +:+ d +:+ nl +:+ nl
  +:+ "## JavaScript" +:+ nl +:+ fence "javascript" js.

Definition render_example (e : example) : string :=
  render_page (title e) (category e) (description e) (code e)
  +:+ (if String.eqb (html e) "" then "" else "## HTML" +:+ nl +:+ fence "html" (html e))
  +:+ (if String.eqb (css e) "" then "" else "## CSS" +:+ nl +:+ fence "css" (css e))
  +:+ usage_notes.

Definition not_found_text (exampleType : string) : string :=
  "Example " +:+ dq +:+ exampleType +:+ dq +:+ " not found. Available examples:"
  +:+ nl +:+ nl
  +:+ join nl (map (fun key => "- " +:+ key) (object_keys examples)).

(** An inherited member of [Object.prototype] is truthy and has none of the
    fields: every one of them prints as "undefined". *)
Definition getExample (exampleType : string) : value :=
  let normalizedType := dash_underscores (toLowerCase exampleType) in
  match object_get examples normalizedType with
  | NoProp => text_response (VStr (not_found_text exampleType))
  | OwnProp example => text_response (VStr (render_example example))
  | ProtoProp _ =>
      text_response (VStr
        (render_page "undefined" "undefined" "undefined" "undefined" +:+ usage_notes))
  end.

Definition handleGetAnimeExample : tool_handler :=
  fun params now c =>
    match get_prop params "exampleType" with
    | VStr exampleType =>
        let cacheKey := "anime-example-" +:+ toLowerCase exampleType in
        let (cached, c1) := Cache_get cacheKey now c in
        if truthy cached then (Ok cached, c1)
        else
          let example := getExample exampleType in
          (Ok example, Cache_set cacheKey example (Some (30 * 60 * 1000)) now c1)
    | _ => (Throw TypeError, c)
    end.

End Examples.

End GetAnimeExample.

(** ** Resources ([resources.ts], [resource-templates.ts]) *)

(** [resources] and [resourceTemplates], the payloads of the list methods. *)
Definition resources : value :=
  VArr [ VObj [ ("uri", VStr "resource:get_anime_components");
                ("name", VStr "Available Anime.js Components and APIs");
                ("description",
                 VStr "List of all available Anime.js components, properties, and APIs");
                ("mimeType", VStr "text/plain") ] ].

Definition resourceTemplates : value :=
  VArr [ VObj [ ("uriTemplate", VStr "anime://component/{componentName}");
                ("name", VStr "Anime.js Component Documentation");
                ("description",
                 VStr "Get detailed documentation for a specific Anime.js component or API");
                ("mimeType", VStr "text/plain") ];
         VObj [ ("uriTemplate", VStr "anime://example/{exampleType}");
                ("name", VStr "Anime.js Example Code");
                ("description", VStr "Get example code for specific animation patterns");
                ("mimeType", VStr "text/javascript") ] ].

(** What a resource handler returns: [{ contentType, content }]. *)
Record resource_content : Type := { contentType : string; content : value }.

Section Resources.

Variable given : Given.

Definition resourceHandlers : list (string * resource_content) :=
  [ ("resource:get_anime_components",
     {| contentType := "text/plain";
        content := VStr (txt_components_resource given) |}) ].

(** [table[key] || fallback] on a table of texts: an empty text is falsy, an
    inherited member is truthy. *)
Definition text_or (table : list (string * string)) (key fallback : string) : value :=
  match object_get table key with
  | OwnProp text => if String.eqb text "" then VStr fallback else VStr text
  | ProtoProp k => inherited_value given k
  | NoProp => VStr fallback
  end.

Definition generateComponentDoc (componentName : string) : resource_content :=
  {| contentType := "text/plain";
     content :=
       text_or [ ("anime", txt_component_doc given "anime");
                 ("timeline", txt_component_doc given "timeline");
                 ("stagger", txt_component_doc given "stagger") ]
               componentName
               ("# " +:+ componentName +:+ nl +:+ nl +:+ "Documentation for "
                +:+ componentName +:+ " is not available.") |}.

Definition generateExampleCode (exampleType : string) : resource_content :=
  {| contentType := "text/javascript";
     content :=
       text_or [ ("basic-transform", txt_example_code given "basic-transform");
                 ("timeline-sequence", txt_example_code given "timeline-sequence");
                 ("stagger-grid", txt_example_code given "stagger-grid");
                 ("svg-path", txt_example_code given "svg-path");
                 ("morphing", txt_example_code given "morphing") ]
               exampleType
               ("// Example for " +:+ exampleType +:+ " not found") |}.

(** The capture of [/^prefix(.+)$/]: what follows the prefix, when it is not
    empty and holds no line terminator. *)
Definition capture_after (prefix uri : string) : option string :=
  match strip_prefix prefix uri with
  | Some rest =>
      if (String.eqb rest "" || has_line_terminator rest)%bool then None else Some rest
  | None => None
  end.

(** [getResourceTemplate(uri)], with the handler it returns already run. *)
Definition getResourceTemplate (uri : string) : option resource_content :=
  match capture_after "anime://component/" uri with
  | Some componentName => Some (generateComponentDoc componentName)
  | None =>
      match capture_after "anime://example/" uri with
      | Some exampleType => Some (generateExampleCode exampleType)
      | None => None
      end
  end.

Definition resource_result (uri : value) (ct text : value) : value :=
  VObj [ ("contentType", ct);
         ("contents", VArr [ VObj [ ("uri", uri); ("text", text) ] ]) ].

(** The handler registered for [ReadResourceRequestSchema].  An inherited
    member of [resourceHandlers] is truthy: it is called, and the fields of
    what it returns are read (a [TypeError] when it returns [undefined] or
    [null]).  A [uri] that is not a string cannot be matched. *)
Definition read_resource_handler (validatedParams : value) : M value :=
  let uri := get_prop validatedParams "uri" in
  match object_get resourceHandlers (to_string uri) with
  | OwnProp result =>
      ret (resource_result uri (VStr (contentType result)) (content result))
  | ProtoProp k =>
      match inherited_call given k VUndefined with
      | Throw e => throw e
      | Ok (VUndefined | VNull) => throw TypeError
      | Ok result =>
          ret (resource_result uri (get_prop result "contentType")
                               (get_prop result "content"))
      end
  | NoProp =>
      match uri with
      | VStr u =>
          match getResourceTemplate u with
          | Some result =>
              ret (resource_result uri (VStr (contentType result)) (content result))
          | None => throw (Error ("Resource not found: " +:+ u))
          end
      | _ => throw TypeError
      end
  end.

End Resources.

(** ** Prompts ([prompts.ts]) *)

Section Prompts.

Variable given : Given.

Definition prompt_result (description : string) (text : value) : value :=
  VObj [ ("description", VStr description);
         ("messages",
          VArr [ VObj [ ("role", VStr "assistant");
                        ("content", VObj [ ("type", VStr "text"); ("text", text) ]) ] ]) ].

(** [args.field || dflt]: reading a field of [undefined] or [null] is a
    [TypeError]. *)
Definition arg_or (args : value) (field : string) (dflt : string) : outcome value :=
  match args with
  | VUndefined | VNull => Throw TypeError
  | _ => Ok (or_else (get_prop args field) (VStr dflt))
  end.

Definition animation_tutorial (args : value) : outcome value :=
  match arg_or args "animationType" "basic" with
  | Throw e => Throw e
  | Ok animationType =>
      Ok (prompt_result
            ("Tutorial for " +:+ to_string animationType +:+ " animations with Anime.js")
            (text_or given
               [ ("transform", txt_tutorial given "transform");
                 ("timeline", txt_tutorial given "timeline");
                 ("stagger", txt_tutorial given "stagger");
                 ("basic", txt_tutorial given "basic") ]
               (to_string animationType)
               (txt_tutorial given "basic")))
  end.

Definition component_usage (args : value) : outcome value :=
  match arg_or args "componentName" "anime" with
  | Throw e => Throw e
  | Ok componentName =>
      Ok (prompt_result
            ("Usage examples for " +:+ to_string componentName)
            (text_or given
               [ ("anime", txt_usage given "anime");
                 ("timeline", txt_usage given "timeline");
                 ("stagger", txt_usage given "stagger") ]
               (to_string componentName)
               (txt_usage given "anime")))
  end.

Definition performance_optimization (args : value) : outcome value :=
  match arg_or args "useCase" "general" with
  | Throw e => Throw e
  | Ok useCase =>
      Ok (prompt_result
            ("Performance optimization tips for " +:+ to_string useCase +:+ " use cases")
            (VStr (txt_performance given)))
  end.

Definition promptHandlers : list (string * (value -> outcome value)) :=
  [ ("animation_tutorial", animation_tutorial);
    ("component_usage", component_usage);
    ("performance_optimization", performance_optimization) ].

(** The handler registered for [GetPromptRequestSchema]. *)
Definition get_prompt_handler (validatedParams : value) : M value :=
  let name := get_prop validatedParams "name" in
  let args := get_prop validatedParams "arguments" in
  match object_get promptHandlers (to_string name) with
  | NoProp => throw (Error ("Prompt not found: " +:+ to_string name))
  | OwnProp promptHandler => fun w => (promptHandler args, w)
  | ProtoProp k => fun w => (inherited_call given k args, w)
  end.

End Prompts.

(** ** The server with all its handlers *)

Definition server (given : Given) : method -> value -> M value :=
  serve (txt_docs given)
        ListAnimeComponents.handleListAnimeComponents
        (GetAnimeExample.handleGetAnimeExample given)
        (inherited_call given)
        resources resourceTemplates (tools_payload given) (prompts_payload given)
        (read_resource_handler given) (get_prompt_handler given).

(** The tool table of that server. *)
Definition server_tools (given : Given) : list (string * tool_handler) :=
  toolHandlers (txt_docs given)
               ListAnimeComponents.handleListAnimeComponents
               (GetAnimeExample.handleGetAnimeExample given).

(** ** Vocabulary of the further properties *)

(** What [parse] accepts for a field. *)
Definition field_ok (sch : field_schema) (v : value) : bool :=
  match sch, v with
  | stringSchema, VStr s =>
      ((1 <=? String.length s) && (String.length s <=? 1000))%nat
  | stringSchema, _ => false
  | optionalStringSchema, (VUndefined | VStr _) => true
  | optionalStringSchema, _ => false
  | anyOptional, _ => true
  end.

(** A [>] occurs in [s]; a [<] occurs in [s]. *)
Fixpoint has_gt (s : string) : bool :=
  match s with
  | EmptyString => false
  | String c s' => (Ascii.eqb c ">" || has_gt s')%bool
  end.

Fixpoint has_lt (s : string) : bool :=
  match s with
  | EmptyString => false
  | String c s' => (Ascii.eqb c "<" || has_lt s')%bool
  end.

(** A complete tag occurs in [s]: a [<] with a [>] somewhere after it. *)
Fixpoint has_tag (s : string) : bool :=
  match s with
  | EmptyString => false
  | String c s' => ((Ascii.eqb c "<" && has_gt s') || has_tag s')%bool
  end.

(** What reachable configurations satisfy besides [breaker_inv], under a
    positive threshold: the count is never negative, a CLOSED breaker is
    below the threshold, and a breaker that is not CLOSED has a last failure
    time. *)
Definition breaker_inv2 (opts : CircuitBreakerOptions) (c : Config) : Prop :=
  breaker_inv opts c
  /\ 0 <= failures (cb c)
  /\ (state (cb c) = CLOSED -> failures (cb c) < failureThreshold opts)
  /\ (state (cb c) <> CLOSED -> lastFailureTime (cb c) <> None).

(** The arguments [{ field: s }] of a tool call. *)
Definition arg (field s : string) : value := VObj [(field, VStr s)].

(** A tool handler keeps its response for its time to live.  After a call
    that found no live entry, the response computed for the first argument
    is stored under the key with that time to live; a call within it whose
    argument differs at most in case returns the stored response and leaves
    the cache as it is; a call after it computes the response of its own
    argument and stores it anew. *)
Definition served_again (handler : tool_handler) (field prefix : string)
                        (ttl_ms : Z) (compute : string -> value) : Prop :=
  forall (c : gmap string CacheItem) (a b : string) (t0 : Z),
    toLowerCase a = toLowerCase b ->
    truthy (fst (Cache_get (prefix +:+ toLowerCase a) t0 c)) = false ->
    let first := handler (arg field a) t0 c in
    fst first = Ok (compute a)
    /\ snd first !! (prefix +:+ toLowerCase a)
       = Some {| data := compute a; timestamp := t0; ttl := ttl_ms |}
    /\ (forall t1, t1 <= t0 + ttl_ms -> handler (arg field b) t1 (snd first) = first)
    /\ (forall t1,
          t0 + ttl_ms < t1 ->
          let second := handler (arg field b) t1 (snd first) in
          fst second = Ok (compute b)
          /\ snd second !! (prefix +:+ toLowerCase a)
             = Some {| data := compute b; timestamp := t1; ttl := ttl_ms |}).

(** The own property [k] of a value, when it has one ([hasOwnProperty]). *)
Definition own_prop (v : value) (k : string) : option value :=
  match v with
  | VObj fields => assoc k fields
  | _ => None
  end.

(** The examples of the search table that [get_anime_example] does not
    have under their id. *)
Definition unavailable_examples (given : Given) : list SearchAnimeExamples.example :=
  List.filter
    (fun e =>
       match object_get (GetAnimeExample.examples given)
                        (dash_underscores (toLowerCase (SearchAnimeExamples.id e))) with
       | OwnProp _ => false
       | _ => true
       end)
    SearchAnimeExamples.examples.


(** The three prompts: the name, the argument each one reads with its
    default, and the words of the description before and after it. *)
Record prompt_entry : Type := {
  p_name : string;
  p_field : string;
  p_default : string;
  p_before : string;
  p_after : string
}.

Definition prompt_table : list prompt_entry :=
  [ {| p_name := "animation_tutorial"; p_field := "animationType";
       p_default := "basic"; p_before := "Tutorial for ";
       p_after := " animations with Anime.js" |};
    {| p_name := "component_usage"; p_field := "componentName";
       p_default := "anime"; p_before := "Usage examples for "; p_after := "" |};
    {| p_name := "performance_optimization"; p_field := "useCase";
       p_default := "general"; p_before := "Performance optimization tips for ";
       p_after := " use cases" |} ].

(** A [Given] for concrete runs: empty texts, inherited members that cannot
    be called. *)
Definition plain_given : Given :=
  {| txt_docs := fun _ => ""; txt_tutorial := fun _ => "";
     txt_usage := fun _ => ""; txt_performance := "";
     txt_component_doc := fun _ => ""; txt_example_code := fun _ => "";
     txt_components_resource := ""; ex_code := fun _ => "";
     ex_html := fun _ => ""; ex_css := fun _ => "";
     tools_payload := VNull; prompts_payload := VNull;
     inherited_value := fun _ => VNull;
     inherited_call := fun _ _ => Throw TypeError |}.

(** The handlers of the five tools, each with the prefix of its cache
    keys. *)
Definition tool_cache_prefixes (given : Given) : list (tool_handler * string) :=
  [ (GetAnimeComponent.handleGetAnimeComponent, "anime-component-");
    (ListAnimeComponents.handleListAnimeComponents, "anime-components-list-");
    (GetAnimeExample.handleGetAnimeExample given, "anime-example-");
    (SearchAnimeExamples.handleSearchAnimeExamples, "anime-examples-search-");
    (GetAnimeDocs.handleGetAnimeDocs (txt_docs given), "anime-docs-") ].

(** * Properties *)

(** ** Circuit breaker *)

Lemma breaker_inv_init opts : breaker_inv opts (init_config opts).
Proof.
  unfold breaker_inv, init_config; simpl.
  repeat split; intros; congruence.
Qed.

Lemma execute_enter_Some b now b' :
  execute_enter b now = Some b' ->
  options b' = options b /\ failures b' = failures b
  /\ lastFailureTime b' = lastFailureTime b
  /\ (state b' = state b /\ state b <> OPEN
      \/ state b = OPEN /\ state b' = HALF_OPEN /\ shouldAttemptReset b now = true).
Proof.
  unfold execute_enter.
  destruct (state b) eqn:Hs.
  - intros [= <-]. rewrite Hs. intuition congruence.
  - destruct (shouldAttemptReset b now) eqn:Hr; [|discriminate].
    intros [= <-]. simpl. intuition congruence.
  - intros [= <-]. rewrite Hs. intuition congruence.
Qed.

Lemma breaker_inv_step opts c e c' :
  breaker_inv opts c -> step c e = Some c' -> breaker_inv opts c'.
Proof.
  intros (Hopt & Hthr & Hfl) Hstep.
  destruct e as [now | ok now]; simpl in Hstep.
  - destruct (execute_enter (cb c) now) as [b|] eqn:He.
    + injection Hstep as <-.
      apply execute_enter_Some in He as (Ho & Hf & _ & Hst).
      unfold breaker_inv; simpl. rewrite Ho, Hf.
      split; [exact Hopt|]. split.
      * intros Hn. apply Hthr.
        destruct Hst as [[Heq _] | (Hopen & _ & _)]; congruence.
      * intros _. lia.
    + injection Hstep as <-. unfold breaker_inv. auto.
  - destruct (inflight c) as [|n] eqn:Hin; [discriminate|].
    injection Hstep as <-.
    unfold breaker_inv, execute_settle; simpl.
    destruct ok; simpl.
    + repeat split; auto; intros; congruence.
    + rewrite Hopt. split; [reflexivity|].
      destruct (Z.geb_spec (failures (cb c) + 1) (failureThreshold opts)) as [Hge|Hlt].
      * split; [intros _; lia | intros; congruence].
      * split.
        -- intros Hn. specialize (Hthr Hn). lia.
        -- intros Hh. assert (state (cb c) <> CLOSED) as Hn by congruence.
           specialize (Hthr Hn). lia.
Qed.

Lemma reachable_inv opts c : reachable opts c -> breaker_inv opts c.
Proof.
  induction 1 as [|c e c' _ IH Hstep].
  - apply breaker_inv_init.
  - eapply breaker_inv_step; eauto.
Qed.

Lemma run_reachable opts es : forall c c',
  reachable opts c -> run c es = Some c' -> reachable opts c'.
Proof.
  induction es as [|e es IH]; intros c c' Hr Hrun; simpl in Hrun.
  - congruence.
  - destruct (step c e) as [c1|] eqn:Hs; [|discriminate].
    eapply IH; [|exact Hrun]. eapply reachable_step; eauto.
Qed.

Lemma run_inv opts es c :
  run (init_config opts) es = Some c -> breaker_inv opts c.
Proof.
  intros Hrun. apply reachable_inv.
  eapply run_reachable; [apply reachable_init | exact Hrun].
Qed.

(** [execute], run to completion on an operation that leaves the breaker
    and the clock alone, is an [Arrive] followed by a [Settle] when the call
    is admitted, and changes nothing when it is rejected. *)
Lemma execute_as_steps {T : Type} (op : M T) (w : World) (n : nat) :
  (forall w0, external (snd (op w0)) = external w0
              /\ clock (snd (op w0)) = clock w0) ->
  (execute_enter (external w) (clock w) <> None ->
   run {| cb := external w; inflight := n |}
       [ Arrive (clock w);
         Settle (match fst (execute op w) with Ok _ => true | Throw _ => false end)
                (clock w) ]
   = Some {| cb := external (snd (execute op w)); inflight := n |})
  /\ (execute_enter (external w) (clock w) = None -> snd (execute op w) = w).
Proof.
  intros Hop. unfold execute. simpl.
  destruct (execute_enter (external w) (clock w)) as [b|] eqn:He.
  - split; [intros _ | discriminate].
    specialize (Hop (count_invocation (with_external w b))).
    destruct (op (count_invocation (with_external w b))) as [[v|e] w'] eqn:Hr;
      simpl in *; destruct Hop as [Hb Hc]; rewrite ?Hb, ?Hc; reflexivity.
  - split; [congruence | reflexivity].
Qed.

(** C4. In every configuration reachable by calls of [execute], overlapping
    or not and whatever their operations do, an OPEN breaker has at least
    [failureThreshold] consecutive failures on record. *)
Theorem open_implies_threshold :
  forall (opts : CircuitBreakerOptions) (es : list event) (c : Config),
    run (init_config opts) es = Some c ->
    state (cb c) = OPEN ->
    failures (cb c) >= failureThreshold opts.
Proof.
  intros opts es c Hrun Hopen.
  destruct (run_inv opts es c Hrun) as (_ & Hthr & _).
  apply Hthr. congruence.
Qed.

Lemma open_implies_threshold_witness :
  run (init_config external_options) five_failures = Some opened_config
  /\ state (cb opened_config) = OPEN
  /\ failures (cb opened_config) >= failureThreshold external_options.
Proof.
  split; [vm_compute; reflexivity|].
  split; [reflexivity|].
  apply (open_implies_threshold external_options five_failures opened_config);
    vm_compute; reflexivity.
Defined.

(** The same invariant for [execute] run to completion: it holds after the
    call whenever the operation maintains it (in particular when the
    operation is itself built from [execute]). *)
Lemma execute_keeps_open_threshold {T : Type} (op : M T) :
  let inv w := state (external w) = OPEN ->
               failures (external w) >= failureThreshold (options (external w)) in
  (forall w, inv w -> inv (snd (op w))) ->
  forall w, inv w -> inv (snd (execute op w)).
Proof.
  intros inv Hop w Hw. unfold execute.
  destruct (execute_enter (external w) (clock w)) as [b|] eqn:He; [|exact Hw].
  apply execute_enter_Some in He as (Ho & Hf & _ & Hst).
  assert (inv (count_invocation (with_external w b))) as Hin.
  { unfold inv; simpl. intros Hb. rewrite Ho, Hf. apply Hw.
    destruct Hst as [[Heq _] | (_ & Hh & _)]; congruence. }
  specialize (Hop _ Hin).
  destruct (op (count_invocation (with_external w b))) as [[v|e] w'];
    unfold inv in *; simpl in *.
  - discriminate.
  - destruct (Z.geb_spec (failures (external w') + 1)
                         (failureThreshold (options (external w')))) as [Hge|Hlt].
    + intros _. lia.
    + intros Hopen. specialize (Hop Hopen). lia.
Qed.

(** C3, refuted as stated. After five failures and the cooldown, the trial
    call is admitted and the breaker is HALF_OPEN; a second call arriving
    before the trial settles is admitted as well, so two calls are in flight
    in HALF_OPEN. *)
Lemma half_open_not_single_flight :
  ~ (forall (es : list event) (c : Config),
        run (init_config external_options) es = Some c ->
        state (cb c) = HALF_OPEN ->
        inflight c = 1%nat /\ forall now, execute_enter (cb c) now = None).
Proof.
  intros H.
  destruct (H (five_failures ++ [Arrive 60009; Arrive 60010])%list
              {| cb := cb trial_pending; inflight := 2 |}) as [Hone _].
  - vm_compute; reflexivity.
  - reflexivity.
  - discriminate Hone.
Qed.

(** C3, as the code has it. HALF_OPEN lasts only while at least one admitted
    call is pending, and [execute] has no gate in that state: every call
    arriving while the breaker is HALF_OPEN is admitted, joins the calls in
    flight and leaves the state HALF_OPEN. *)
Theorem half_open_admits_every_call :
  forall (opts : CircuitBreakerOptions) (es : list event) (c : Config),
    run (init_config opts) es = Some c ->
    state (cb c) = HALF_OPEN ->
    (1 <= inflight c)%nat
    /\ forall now,
         step c (Arrive now) = Some {| cb := cb c; inflight := S (inflight c) |}.
Proof.
  intros opts es c Hrun Hhalf.
  destruct (run_inv opts es c Hrun) as (_ & _ & Hfl).
  split; [auto|].
  intros now. simpl. unfold execute_enter. rewrite Hhalf. reflexivity.
Qed.

Lemma half_open_admits_every_call_witness :
  run (init_config external_options) (five_failures ++ [Arrive 60009])%list
    = Some trial_pending
  /\ state (cb trial_pending) = HALF_OPEN
  /\ (1 <= inflight trial_pending)%nat
  /\ forall now,
       step trial_pending (Arrive now)
       = Some {| cb := cb trial_pending; inflight := S (inflight trial_pending) |}.
Proof.
  split; [vm_compute; reflexivity|].
  split; [reflexivity|].
  apply (half_open_admits_every_call external_options
           (five_failures ++ [Arrive 60009])%list trial_pending);
    vm_compute; reflexivity.
Defined.

(** One failing call on a breaker that is not OPEN: the operation is called
    and the failure recorded. *)
Lemma failing_call_admitted (w : World) (t : Z) (e : error) :
  state (external w) <> OPEN ->
  let w' := snd (at_time t (execute (@throw unit e)) w) in
  options (external w') = options (external w)
  /\ failures (external w') = failures (external w) + 1
  /\ lastFailureTime (external w') = Some t
  /\ state (external w')
     = (if failures (external w) + 1 >=? failureThreshold (options (external w))
        then OPEN else state (external w))
  /\ invoked w' = S (invoked w)
  /\ clock w' = t.
Proof.
  intros Hs. unfold at_time, execute, execute_enter; simpl.
  destruct (state (external w)) eqn:Hst; try congruence; simpl;
    rewrite ?Hst; repeat split; reflexivity.
Qed.



(** One failing call on an OPEN breaker that has reached the threshold:
    rejected or tried, the breaker is OPEN afterwards. *)
Lemma failing_call_open (w : World) (t : Z) (e : error) :
  state (external w) = OPEN ->
  failures (external w) >= failureThreshold (options (external w)) ->
  let w' := snd (at_time t (execute (@throw unit e)) w) in
  options (external w') = options (external w)
  /\ state (external w') = OPEN
  /\ failures (external w') >= failureThreshold (options (external w)).
Proof.
  intros Hs Hf. unfold at_time, execute, execute_enter; simpl. rewrite Hs.
  destruct (shouldAttemptReset (external w) t); simpl.
  - destruct (Z.geb_spec (failures (external w) + 1)
                         (failureThreshold (options (external w))));
      repeat split; auto; lia.
  - repeat split; auto.
Qed.

(** "Starting from CLOSED" in general: whatever the count on record, failing
    calls in a row, enough of them to reach the threshold, leave the breaker
    OPEN. *)
Lemma failing_calls_open (l : list (Z * error)) :
  forall (w : World) (x : Z * error),
    state (external w) = CLOSED
    \/ (state (external w) = OPEN
        /\ failures (external w) >= failureThreshold (options (external w))) ->
    failures (external w) + Z.of_nat (S (List.length l))
    >= failureThreshold (options (external w)) ->
    state (external (failing_calls (x :: l) w)) = OPEN.
Proof.
  induction l as [|y l IH]; intros w [t e] Hst Hlen.
  - change (failing_calls [(t, e)] w)
      with (snd (at_time t (execute (@throw unit e)) w)).
    destruct Hst as [Hc | [Ho Hf]].
    + destruct (failing_call_admitted w t e) as (_ & _ & _ & Hs & _);
        [congruence|].
      rewrite Hs.
      destruct (Z.geb_spec (failures (external w) + 1)
                           (failureThreshold (options (external w))));
        [reflexivity | simpl in Hlen; lia].
    + apply (failing_call_open w t e Ho Hf).
  - change (failing_calls ((t, e) :: y :: l) w)
      with (failing_calls (y :: l) (snd (at_time t (execute (@throw unit e)) w))).
    set (w1 := snd (at_time t (execute (@throw unit e)) w)).
    destruct Hst as [Hc | [Ho Hf]].
    + destruct (failing_call_admitted w t e) as (Hopt & Hfl & _ & Hs & _);
        [congruence|].
      fold w1 in Hopt, Hfl, Hs.
      apply IH; rewrite Hopt, Hfl.
      * rewrite Hs, Hc.
        destruct (Z.geb_spec (failures (external w) + 1)
                             (failureThreshold (options (external w))));
          [right; split; [reflexivity | lia] | left; reflexivity].
      * change (Z.of_nat (S (List.length (y :: l))))
          with (Z.of_nat (S (S (List.length l)))) in Hlen. lia.
    + destruct (failing_call_open w t e Ho Hf) as (Hopt & Hs & Hfl).
      fold w1 in Hopt, Hs, Hfl.
      apply IH; rewrite Hopt.
      * right. split; assumption.
      * lia.
Qed.

(** ** Expiring cache *)

Lemma Cache_get_live key now (c : gmap string CacheItem) item :
  c !! key = Some item -> ~ expired now item ->
  Cache_get key now c = (data item, c).
Proof.
  intros Hk Hlive. unfold Cache_get. rewrite Hk.
  destruct (Z.gtb_spec now (timestamp item + ttl item)) as [Hgt|Hle];
    [|reflexivity].
  exfalso. apply Hlive. unfold expired. lia.
Qed.

Lemma Cache_get_expired key now (c : gmap string CacheItem) item :
  c !! key = Some item -> expired now item ->
  Cache_get key now c = (VNull, delete key c).
Proof.
  intros Hk Hexp. unfold Cache_get. rewrite Hk.
  destruct (Z.gtb_spec now (timestamp item + ttl item)) as [Hgt|Hle];
    [reflexivity|].
  unfold expired in Hexp. lia.
Qed.

Lemma Cache_get_absent key now (c : gmap string CacheItem) :
  c !! key = None -> Cache_get key now c = (VNull, c).
Proof. intros Hk. unfold Cache_get. rewrite Hk. reflexivity. Qed.

(** C5, refuted as stated: a [ttl] of 0 is replaced by the default of five
    minutes, so a read one millisecond after [storedAt + 0] still returns
    the value and purges nothing. *)
Lemma zero_ttl_entry_outlives_its_ttl :
  let c := Cache_set "k" (VStr "v") (Some 0) 0 ∅ in
  1 > 0 + 0 /\ Cache_get "k" 1 c = (VStr "v", c).
Proof. split; [reflexivity | vm_compute; reflexivity]. Qed.

(** C5, as the code has it. For every key, value and [ttl > 0]: a read at
    the time of the [set], and every read at a time [now <= storedAt + ttl],
    returns the value and leaves the map alone; a read at a time
    [now > storedAt + ttl] returns [null] and deletes the entry.  A [ttl] of
    0, like an omitted one, stands for the default of five minutes. *)
Theorem set_then_get :
  forall (c : gmap string CacheItem) (k : string) (v : value) (t t0 : Z),
    0 < t ->
    let c' := Cache_set k v (Some t) t0 c in
    Cache_get k t0 c' = (v, c')
    /\ (forall now, now <= t0 + t -> Cache_get k now c' = (v, c'))
    /\ (forall now, now > t0 + t ->
          Cache_get k now c' = (VNull, delete k c')
          /\ delete k c' !! k = None)
    /\ effective_ttl (Some 0) = 5 * 60 * 1000
    /\ effective_ttl None = 5 * 60 * 1000.
Proof.
  intros c k v t t0 Ht c'.
  assert (c' !! k = Some {| data := v; timestamp := t0; ttl := t |}) as Hk.
  { subst c'. unfold Cache_set, effective_ttl.
    destruct (Z.eqb_spec t 0); [lia|]. apply lookup_insert_eq. }
  split; [|split; [|split]].
  - rewrite (Cache_get_live _ _ _ _ Hk); [reflexivity|]. unfold expired; simpl. lia.
  - intros now Hnow.
    rewrite (Cache_get_live _ _ _ _ Hk); [reflexivity|]. unfold expired; simpl. lia.
  - intros now Hnow. split; [|apply lookup_delete_eq].
    apply (Cache_get_expired _ _ _ _ Hk). unfold expired; simpl. lia.
  - split; reflexivity.
Qed.

Lemma set_then_get_witness :
  let c' := Cache_set "k" (VStr "v") (Some 1000) 50 ∅ in
  0 < 1000
  /\ Cache_get "k" 50 c' = (VStr "v", c')
  /\ Cache_get "k" 1050 c' = (VStr "v", c')
  /\ Cache_get "k" 1051 c' = (VNull, delete "k" c').
Proof.
  intros c'.
  assert (0 < 1000) as Hpos by reflexivity.
  destruct (set_then_get ∅ "k" (VStr "v") 1000 50 Hpos) as (Hnow & Hlive & Hdead & _).
  split; [exact Hpos|]. split; [exact Hnow|].
  split; [apply Hlive; discriminate|].
  apply Hdead. reflexivity.
Defined.

Lemma size_live_plus_expired (now : Z) (c : gmap string CacheItem) :
  size c = (size (live_entries now c) + size (expired_entries now c))%nat.
Proof.
  unfold live_entries, expired_entries.
  rewrite <- (map_filter_union_complement (fun kv => expired now kv.2) c) at 1.
  rewrite map_size_disj_union by apply map_disjoint_filter_complement.
  lia.
Qed.

(** C6. [size()] is the number of stored keys, entries past their expiry
    included: it is the live entries plus the expired ones at any clock
    reading, and it returns the map as it found it.  An expired entry is
    counted until a [get] on its key removes it, which lowers the size by
    one; a [get] on a key that is absent or still live removes nothing. *)
Theorem size_counts_expired :
  forall (c : gmap string CacheItem) (now : Z),
    Cache_size c
    = ((size (live_entries now c) + size (expired_entries now c))%nat, c)
    /\ (forall key item,
          c !! key = Some item -> expired now item ->
          fst (Cache_size c) = S (size (delete key c))
          /\ Cache_get key now c = (VNull, delete key c)
          /\ fst (Cache_size (snd (Cache_get key now c))) = pred (fst (Cache_size c)))
    /\ (forall key,
          (forall item, c !! key = Some item -> ~ expired now item) ->
          snd (Cache_get key now c) = c).
Proof.
  intros c now. split; [|split].
  - unfold Cache_size. f_equal. apply size_live_plus_expired.
  - intros key item Hk Hexp.
    assert (size (delete key c) = pred (size c)) as Hdel
      by (apply map_size_delete_Some; eauto).
    assert (size c <> 0%nat) as Hne.
    { intros H0. apply map_size_empty_inv in H0. subst c.
      rewrite lookup_empty in Hk. discriminate. }
    rewrite (Cache_get_expired _ _ _ _ Hk Hexp). simpl.
    repeat split; lia.
  - intros key Hlive. destruct (c !! key) as [item|] eqn:Hk.
    + rewrite (Cache_get_live _ _ _ _ Hk (Hlive _ eq_refl)). reflexivity.
    + rewrite (Cache_get_absent _ _ _ Hk). reflexivity.
Qed.

Lemma size_counts_expired_witness :
  let c := Cache_set "a" VNull (Some 10) 0 (Cache_set "b" VNull (Some 500) 0 ∅) in
  c !! "a" = Some {| data := VNull; timestamp := 0; ttl := 10 |}
  /\ expired 100 {| data := VNull; timestamp := 0; ttl := 10 |}
  /\ fst (Cache_size c) = 2%nat
  /\ fst (Cache_size (snd (Cache_get "a" 100 c))) = 1%nat.
Proof.
  intros c.
  assert (c !! "a" = Some {| data := VNull; timestamp := 0; ttl := 10 |}) as Hk
    by (vm_compute; reflexivity).
  assert (expired 100 {| data := VNull; timestamp := 0; ttl := 10 |}) as Hexp
    by (unfold expired; simpl; lia).
  destruct (size_counts_expired c 100) as (_ & Hpurge & _).
  destruct (Hpurge "a" _ Hk Hexp) as (_ & _ & Hsize).
  split; [exact Hk|]. split; [exact Hexp|].
  split; [vm_compute; reflexivity|].
  rewrite Hsize. vm_compute; reflexivity.
Defined.

(** ** Search *)

Lemma append_nil (b : string) : "" +:+ b = b.
Proof. reflexivity. Qed.

Lemma append_cons (c : ascii) (a b : string) :
  String c a +:+ b = String c (a +:+ b).
Proof. reflexivity. Qed.

Lemma prefix_nil (s : string) : String.prefix "" s = true.
Proof. destruct s; reflexivity. Qed.

Lemma prefix_app (x a b : string) :
  String.prefix x a = true -> String.prefix x (a +:+ b) = true.
Proof.
  revert x. induction a as [|d a IH]; intros x H.
  - destruct x as [|c x]; [apply prefix_nil | discriminate H].
  - destruct x as [|c x]; [apply prefix_nil|].
    rewrite append_cons. simpl in *.
    destruct (ascii_dec c d); [auto | discriminate].
Qed.

Lemma prefix_refl (x : string) : String.prefix x x = true.
Proof.
  induction x as [|c x IH]; simpl; [reflexivity|].
  destruct (ascii_dec c c); [exact IH | congruence].
Qed.

Lemma includes_unfold (s x : string) :
  includes s x = if String.prefix x s then true
                 else match s with
                      | EmptyString => false
                      | String _ s' => includes s' x
                      end.
Proof. destruct s; reflexivity. Qed.

Lemma includes_refl (x : string) : includes x x = true.
Proof. rewrite includes_unfold, prefix_refl. reflexivity. Qed.

Lemma includes_app_l (a b x : string) :
  includes a x = true -> includes (a +:+ b) x = true.
Proof.
  induction a as [|c a IH]; intros H; rewrite includes_unfold in H.
  - destruct (String.prefix x "") eqn:Hp; [|discriminate].
    rewrite includes_unfold, (prefix_app _ _ b Hp). reflexivity.
  - destruct (String.prefix x (String c a)) eqn:Hp.
    + rewrite includes_unfold, (prefix_app _ _ b Hp). reflexivity.
    + rewrite append_cons, includes_unfold.
      destruct (String.prefix x (String c (a +:+ b))); [reflexivity | auto].
Qed.

Lemma includes_app_r (a b x : string) :
  includes b x = true -> includes (a +:+ b) x = true.
Proof.
  intros H. induction a as [|c a IH]; [exact H|].
  rewrite append_cons, includes_unfold.
  destruct (String.prefix x (String c (a +:+ b))); [reflexivity | exact IH].
Qed.

Create HintDb incl.
#[local] Hint Resolve includes_refl includes_app_l includes_app_r : incl.


(** Finds a piece of a text built by appending. *)
Ltac find_piece :=
  first [ apply includes_refl
        | apply includes_app_l; apply includes_refl
        | apply includes_app_r; find_piece ].





Lemma eqb_ascii_of_nat (x y : nat) :
  (x < 256)%nat -> (y < 256)%nat ->
  Ascii.eqb (ascii_of_nat x) (ascii_of_nat y) = (x =? y)%nat.
Proof.
  intros Hx Hy. destruct (Nat.eqb_spec x y) as [->|Hne].
  - apply Ascii.eqb_refl.
  - apply Ascii.eqb_neq. intros Heq. apply Hne.
    rewrite <- (nat_ascii_embedding x Hx), <- (nat_ascii_embedding y Hy), Heq.
    reflexivity.
Qed.

(** The case folding of the code identifies exactly the characters that are
    the same letter. *)
Lemma same_letter_lower (a b : ascii) :
  same_letter a b = Ascii.eqb (lower_char a) (lower_char b).
Proof.
  unfold same_letter, lower_char.
  pose proof (nat_ascii_bounded a) as Ha. pose proof (nat_ascii_bounded b) as Hb.
  remember (nat_of_ascii a) as m eqn:Hm. remember (nat_of_ascii b) as n eqn:Hn.
  assert (a = ascii_of_nat m) as -> by (subst m; symmetry; apply ascii_nat_embedding).
  assert (b = ascii_of_nat n) as -> by (subst n; symmetry; apply ascii_nat_embedding).
  clear Hm Hn. cbv zeta.
  destruct (Nat.leb_spec 65 m), (Nat.leb_spec m 90),
    (Nat.leb_spec 65 n), (Nat.leb_spec n 90);
    cbn [andb orb]; rewrite eqb_ascii_of_nat by lia;
    repeat match goal with
           | |- context [Nat.eqb ?x ?y] => destruct (Nat.eqb_spec x y)
           end;
    cbn [andb orb]; first [reflexivity | lia].
Qed.




Lemma ci_equal_lower (a b : string) :
  ci_equal a b = true <-> toLowerCase a = toLowerCase b.
Proof.
  revert b. induction a as [|x a IH]; intros [|y b]; simpl;
    try (split; [discriminate | discriminate]); [tauto|].
  rewrite andb_true_iff, IH, same_letter_lower. split.
  - intros [Hc Hs]. apply Ascii.eqb_eq in Hc. rewrite Hc, Hs. reflexivity.
  - intros [= Hc Hs]. rewrite Hc, Ascii.eqb_refl. split; [reflexivity | exact Hs].
Qed.





(** ** Dispatch *)

Lemma assoc_key {A : Type} (k : string) (l : list (string * A)) (a : A) :
  assoc k l = Some a -> In k (object_keys l).
Proof.
  induction l as [|[k' a'] l IH]; simpl; [discriminate|].
  destruct (String.eqb_spec k k') as [->|_]; [left; reflexivity | right; auto].
Qed.

Lemma object_get_own_key {A : Type} (k : string) (l : list (string * A)) (a : A) :
  object_get l k = OwnProp a -> In k (object_keys l).
Proof.
  unfold object_get. destruct (assoc k l) as [a'|] eqn:Ha.
  - intros _. eapply assoc_key; eauto.
  - destruct (existsb _ _); discriminate.
Qed.

Lemma execute_enter_again b now b' :
  execute_enter b now = Some b' -> execute_enter b' now = Some b'.
Proof.
  intros H. apply execute_enter_Some in H as (_ & _ & _ & Hst).
  unfold execute_enter.
  destruct Hst as [[Heq Hn] | (_ & Hh & _)].
  - destruct (state b') eqn:Hs; congruence.
  - rewrite Hh. reflexivity.
Qed.

(** A validation failure ends [handleRequest] before [execute]: the breaker,
    the cache and the invocation count are as they were. *)
Lemma validation_failure_stops_request {T : Type} (method : string) (params : value)
      (handler : value -> M T) (e : error) (w : World) :
  validateAndSanitizeParams method params = Throw e ->
  handleRequest method params handler w = (Throw e, w).
Proof. intros H. unfold handleRequest. rewrite H. reflexivity. Qed.

Lemma validate_tool_call (n : string) (args : value) :
  In n tool_names ->
  validateAndSanitizeParams "call_tool" (tool_call n args) = Ok (tool_call n args).
Proof.
  intros Hn. simpl in Hn.
  repeat (destruct Hn as [<-|Hn]; [reflexivity|]). destruct Hn.
Qed.

(** The schema declared for [get_anime_component], had it been the one
    applied: a missing [componentName] and a name of more than 1000
    characters are rejected before [execute], with a message naming the
    field. *)
Lemma component_schema_rejects {T : Type} (handler : value -> M T) (w : World) :
  handleRequest "get_anime_component" (VObj []) handler w
  = (Throw (Error "Validation failed for get_anime_component: componentName: Required"), w)
  /\ forall s, (1000 < String.length s)%nat ->
       handleRequest "get_anime_component"
                     (VObj [("componentName", VStr s)]) handler w
       = (Throw (Error "Validation failed for get_anime_component: componentName: String must contain at most 1000 character(s)"), w).
Proof.
  split; [reflexivity|].
  intros s Hlen. apply validation_failure_stops_request.
  unfold validateAndSanitizeParams.
  change (object_get methodSchemas "get_anime_component")
    with (OwnProp [("componentName", stringSchema)]).
  change (or_else (VObj [("componentName", VStr s)]) (VObj []))
    with (VObj [("componentName", VStr s)]).
  unfold zod_parse.
  change (flat_map (B:=issue) _ [("componentName", stringSchema)])
    with (parse_field "componentName" stringSchema (VStr s) ++ [])%list.
  unfold parse_field.
  destruct (Nat.ltb_spec (String.length s) 1) as [Hlt|_]; [lia|].
  destruct (Nat.ltb_spec 1000 (String.length s)) as [_|Hge]; [|lia].
  reflexivity.
Qed.

Section ServerProperties.

Variable doc_content : string -> string.
Variables handleListAnimeComponents handleGetAnimeExample : tool_handler.
Variable call_inherited : string -> value -> outcome value.
Variables resources resourceTemplates registeredTools prompts : value.
Variables read_resource_handler get_prompt_handler : value -> M value.

Let tools := toolHandlers doc_content handleListAnimeComponents handleGetAnimeExample.
Let srv := serve doc_content handleListAnimeComponents handleGetAnimeExample
                 call_inherited resources resourceTemplates registeredTools prompts
                 read_resource_handler get_prompt_handler.

Lemma own_tool_name (n : string) (handler : tool_handler) :
  object_get tools n = OwnProp handler -> In n tool_names.
Proof.
  intros H. change tool_names with (object_keys tools).
  eapply object_get_own_key; eauto.
Qed.

(** A tool call whose handler rejects, on a breaker that admits it: the
    rejection passes through the inner and the outer [execute]. *)
Lemma failing_tool_call (w : World) (n : string) (args : value)
      (handler : tool_handler) (e : error) (c' : gmap string CacheItem)
      (b : CircuitBreaker) :
  object_get tools n = OwnProp handler ->
  handler (or_else args (VObj [])) (clock w) (cache w) = (Throw e, c') ->
  execute_enter (external w) (clock w) = Some b ->
  srv call_tool (tool_call n args) w
  = (Throw e,
     {| clock := clock w;
        external := onFailure (onFailure b (clock w)) (clock w);
        cache := c';
        invoked := S (S (invoked w)) |}).
Proof.
  intros Hown Hh He.
  pose proof (own_tool_name n handler Hown) as Hn.
  unfold srv, serve, handleRequest. simpl method_name.
  rewrite (validate_tool_call n args Hn).
  unfold execute at 1. rewrite He.
  unfold handler_of, call_tool_handler.
  assert (get_prop (tool_call n args) "name" = VStr n) as -> by reflexivity.
  assert (get_prop (tool_call n args) "arguments" = args) as -> by reflexivity.
  assert (truthy (VStr n) = true) as ->.
  { simpl in Hn. repeat (destruct Hn as [<-|Hn]; [reflexivity|]). destruct Hn. }
  fold tools. rewrite Hown.
  unfold execute. simpl.
  rewrite (execute_enter_again _ _ _ He).
  unfold on_cache. simpl. rewrite Hh. reflexivity.
Qed.

Lemma failing_tool_call_closed (w : World) (n : string) (args : value)
      (handler : tool_handler) (t : Z) :
  object_get tools n = OwnProp handler ->
  always_throws handler (or_else args (VObj [])) ->
  state (external w) = CLOSED ->
  exists c',
    snd (at_time t (srv call_tool (tool_call n args)) w)
    = {| clock := t;
         external := onFailure (onFailure (external w) t) t;
         cache := c';
         invoked := S (S (invoked w)) |}.
Proof.
  intros Hown Hthrows Hst.
  destruct (Hthrows t (cache w)) as [e He].
  destruct (handler (or_else args (VObj [])) t (cache w)) as [r c'] eqn:Hh.
  simpl in He. subst r.
  exists c'. unfold at_time.
  rewrite (failing_tool_call (with_clock w t) n args handler e c' (external w));
    [reflexivity | exact Hown | exact Hh |].
  unfold execute_enter. simpl. rewrite Hst. reflexivity.
Qed.

(** C9. A tool call whose handler rejects, made while the breaker lets calls
    through, raises the failure count of [circuitBreakers.external] by
    exactly two (the operation was called twice: the request handler, then
    the tool).  With the threshold of five, from a CLOSED breaker without
    failures, two such calls leave it CLOSED with four failures and the third
    leaves it OPEN with six. *)
Theorem failing_tool_call_counts_twice :
  forall (w : World) (n : string) (args : value) (handler : tool_handler),
    object_get tools n = OwnProp handler ->
    always_throws handler (or_else args (VObj [])) ->
    (execute_enter (external w) (clock w) <> None ->
     exists e w',
       srv call_tool (tool_call n args) w = (Throw e, w')
       /\ failures (external w') = failures (external w) + 2
       /\ invoked w' = S (S (invoked w)))
    /\ (failureThreshold (options (external w)) = 5 ->
        state (external w) = CLOSED ->
        failures (external w) = 0 ->
        forall t1 t2 t3 : Z,
          let call := (call_tool, tool_call n args) in
          let w2 := after_requests srv [(t1, call); (t2, call)] w in
          let w3 := after_requests srv [(t1, call); (t2, call); (t3, call)] w in
          state (external w2) = CLOSED /\ failures (external w2) = 4
          /\ state (external w3) = OPEN /\ failures (external w3) = 6).
Proof.
  intros w n args handler Hown Hthrows. split.
  - intros Hadm.
    destruct (execute_enter (external w) (clock w)) as [b|] eqn:He; [|congruence].
    destruct (Hthrows (clock w) (cache w)) as [e Hr].
    destruct (handler (or_else args (VObj [])) (clock w) (cache w)) as [r c'] eqn:Hh.
    simpl in Hr. subst r.
    exists e. eexists. split; [eapply failing_tool_call; eauto|].
    apply execute_enter_Some in He as (_ & Hf & _ & _).
    simpl. rewrite Hf. split; [lia | reflexivity].
  - intros Hthr Hst Hf t1 t2 t3 call w2 w3.
    destruct (failing_tool_call_closed w n args handler t1 Hown Hthrows Hst)
      as [c1 H1].
    set (w1 := snd (at_time t1 (srv call_tool (tool_call n args)) w)) in *.
    assert (state (external w1) = CLOSED /\ failures (external w1) = 2
            /\ failureThreshold (options (external w1)) = 5) as (Hs1 & Hf1 & Ht1).
    { rewrite H1. simpl. rewrite Hf, Hthr, Hst. repeat split. }
    destruct (failing_tool_call_closed w1 n args handler t2 Hown Hthrows Hs1)
      as [c2 H2].
    assert (w2 = snd (at_time t2 (srv call_tool (tool_call n args)) w1)) as Hw2
      by reflexivity.
    assert (state (external w2) = CLOSED /\ failures (external w2) = 4
            /\ failureThreshold (options (external w2)) = 5) as (Hs2 & Hf2 & Ht2).
    { rewrite Hw2, H2. simpl. rewrite Hf1, Ht1, Hs1. repeat split. }
    destruct (failing_tool_call_closed w2 n args handler t3 Hown Hthrows Hs2)
      as [c3 H3].
    assert (w3 = snd (at_time t3 (srv call_tool (tool_call n args)) w2)) as Hw3
      by reflexivity.
    split; [exact Hs2|]. split; [exact Hf2|].
    rewrite Hw3, H3. simpl. rewrite Hf2, Ht2. split; reflexivity.
Qed.

(** C10, as the code has it. Every request goes through [handleRequest] and
    so through [circuitBreakers.external]. While that breaker is OPEN and
    less than [resetTimeout] has passed since the last failure, a request
    whose parameters pass validation is rejected with 'Circuit breaker is
    OPEN' and a request whose parameters fail validation is rejected with
    the validation error; either way the world is left as it was, so no
    handler ran.  The parameters of the four list methods always pass. *)
Theorem open_breaker_rejects_requests :
  forall (m : method) (params : value) (w : World) (t : Z),
    state (external w) = OPEN ->
    lastFailureTime (external w) = Some t ->
    clock w - t < resetTimeout (options (external w)) ->
    (forall v, validateAndSanitizeParams (method_name m) params = Ok v ->
               srv m params w = (Throw (Error "Circuit breaker is OPEN"), w))
    /\ (forall e, validateAndSanitizeParams (method_name m) params = Throw e ->
                  srv m params w = (Throw e, w))
    /\ (In m [list_resources; list_resource_templates; list_tools; list_prompts] ->
        forall fields,
          srv m (VObj fields) w = (Throw (Error "Circuit breaker is OPEN"), w)
          /\ srv m VUndefined w = (Throw (Error "Circuit breaker is OPEN"), w)).
Proof.
  intros m params w t Hst Hlast Hnow.
  assert (forall p v, validateAndSanitizeParams (method_name m) p = Ok v ->
                      srv m p w = (Throw (Error "Circuit breaker is OPEN"), w))
    as Hvalid.
  { intros p v Hv. unfold srv, serve, handleRequest. rewrite Hv.
    unfold execute, execute_enter, shouldAttemptReset. rewrite Hst, Hlast.
    destruct (Z.geb_spec (clock w - t) (resetTimeout (options (external w))));
      [lia | reflexivity]. }
  split; [intros v; apply Hvalid|]. split.
  - intros e He. unfold srv, serve.
    apply validation_failure_stops_request. exact He.
  - intros Hm fields. simpl in Hm.
    split; apply (Hvalid _ (VObj []));
      repeat (destruct Hm as [<-|Hm]; [reflexivity|]); destruct Hm.
Qed.

(** C1, on the code. The tool arguments are never checked against the schema
    declared for the tool: the only schema a tool call meets is the one of
    [call_tool], which accepts any [arguments].  A [get_anime_component] call
    without [componentName] therefore fails inside the tool handler with a
    [TypeError], after both [execute] levels were entered and with two
    failures recorded; a call with a 2000-character name succeeds.  The
    schema [get_anime_component], applied by hand, rejects both. *)
Theorem tool_arguments_skip_their_schema :
  validateAndSanitizeParams "get_anime_component" (VObj [])
  = Throw (Error "Validation failed for get_anime_component: componentName: Required")
  /\ validateAndSanitizeParams "get_anime_component"
       (VObj [("componentName", VStr (repeat_string "a" 2000))])
     = Throw (Error "Validation failed for get_anime_component: componentName: String must contain at most 1000 character(s)")
  /\ srv call_tool (tool_call "get_anime_component" (VObj [])) (boot 0)
     = (Throw TypeError,
        {| clock := 0;
           external := {| options := external_options; failures := 2;
                          lastFailureTime := Some 0; state := CLOSED |};
           cache := ∅;
           invoked := 2 |})
  /\ fst (srv call_tool
             (tool_call "get_anime_component"
                (VObj [("componentName", VStr (repeat_string "a" 2000))]))
             (boot 0))
     = Ok (GetAnimeComponent.getComponentInfo (repeat_string "a" 2000)).
Proof.
  split; [vm_compute; reflexivity|].
  split; [vm_compute; reflexivity|].
  split; [vm_compute; reflexivity|].
  vm_compute; reflexivity.
Qed.

(** The valid case of C1: the component "anime" is found and its text
    contains "anime()". *)
Lemma anime_component_found :
  let out := srv call_tool
                 (tool_call "get_anime_component"
                    (VObj [("componentName", VStr "anime")]))
                 (boot 0) in
  fst out = Ok (GetAnimeComponent.getComponentInfo "anime")
  /\ includes (text_of (GetAnimeComponent.getComponentInfo "anime")) "anime()" = true
  /\ external (snd out) = new_CircuitBreaker external_options.
Proof.
  split; [vm_compute; reflexivity|].
  split; vm_compute; reflexivity.
Qed.

End ServerProperties.

(** ** Lookups by identifier *)

Lemma join_mentions (sep x : string) (l : list string) :
  (exists y, In y l /\ includes y x = true) -> includes (join sep l) x = true.
Proof.
  unfold join. induction l as [|a l IH]; intros (y & Hy & Hx); [destruct Hy|].
  destruct l as [|b l].
  - destruct Hy as [->|[]]. exact Hx.
  - change (String.concat sep (a :: b :: l))
      with (a +:+ sep +:+ String.concat sep (b :: l)).
    destruct Hy as [->|Hy].
    + apply includes_app_l, Hx.
    + do 2 apply includes_app_r. apply IH. eauto.
Qed.

(** The part of C8 that holds: a topic whose normalised form is neither a
    key of [docs] nor a member of [Object.prototype] gets the not-found
    text, which lists every topic. *)
Lemma unknown_topic_lists_topics (doc_content : string -> string) (topic : string) :
  object_get (GetAnimeDocs.docs doc_content) (dash_underscores (toLowerCase topic))
  = NoProp ->
  GetAnimeDocs.getDocumentation doc_content topic
  = text_response (VStr (GetAnimeDocs.not_found_text doc_content topic))
  /\ forall key, In key (object_keys (GetAnimeDocs.docs doc_content)) ->
       includes (GetAnimeDocs.not_found_text doc_content topic) key = true.
Proof.
  intros Hno. unfold GetAnimeDocs.getDocumentation. rewrite Hno.
  split; [reflexivity|].
  intros key Hkey. unfold GetAnimeDocs.not_found_text.
  do 7 apply includes_app_r. apply includes_app_l.
  apply join_mentions. exists ("- " +:+ key). split.
  - apply in_map. exact Hkey.
  - apply includes_app_r, includes_refl.
Qed.

Lemma unknown_component_lists_components (componentName : string) :
  object_get GetAnimeComponent.components (strip_parens (toLowerCase componentName))
  = NoProp ->
  exists text,
    GetAnimeComponent.getComponentInfo componentName = text_response (VStr text)
    /\ forall key, In key (object_keys GetAnimeComponent.components) ->
         includes text key = true.
Proof.
  intros Hno. unfold GetAnimeComponent.getComponentInfo. rewrite Hno.
  eexists. split; [reflexivity|].
  intros key Hkey. do 5 apply includes_app_r.
  apply join_mentions. exists key. split; [exact Hkey | apply includes_refl].
Qed.

(** Neither lookup handler throws on a string argument. *)
Lemma lookup_handlers_return (doc_content : string -> string) (s : string)
      (now : Z) (c : gmap string CacheItem) :
  (exists r c', GetAnimeDocs.handleGetAnimeDocs doc_content
                  (VObj [("topic", VStr s)]) now c = (Ok r, c'))
  /\ (exists r c', GetAnimeComponent.handleGetAnimeComponent
                     (VObj [("componentName", VStr s)]) now c = (Ok r, c')).
Proof.
  split.
  - unfold GetAnimeDocs.handleGetAnimeDocs.
    change (get_prop (VObj [("topic", VStr s)]) "topic") with (VStr s).
    cbv beta iota.
    destruct (Cache_get _ now c) as [cached c1].
    destruct (truthy cached); eauto.
  - unfold GetAnimeComponent.handleGetAnimeComponent.
    change (get_prop (VObj [("componentName", VStr s)]) "componentName")
      with (VStr s).
    cbv beta iota.
    destruct (Cache_get _ now c) as [cached c1].
    destruct (truthy cached); eauto.
Qed.

(** C8, on the code. "constructor" is no key of [docs] or of [components],
    yet both tables answer the lookup with the member inherited from
    [Object.prototype], which is truthy: [get_anime_docs] returns a response
    whose text is [undefined], and [get_anime_component] returns a page for
    a component called "Object"; neither lists the available names. *)
Theorem inherited_key_is_served_as_found :
  forall doc_content : string -> string,
    assoc "constructor" (GetAnimeDocs.docs doc_content) = None
    /\ GetAnimeDocs.getDocumentation doc_content "constructor"
       = text_response VUndefined
    /\ response_text (GetAnimeDocs.getDocumentation doc_content "constructor") = None
    /\ assoc "constructor" GetAnimeComponent.components = None
    /\ GetAnimeComponent.getComponentInfo "constructor"
       = text_response
           (VStr (GetAnimeComponent.render_header
                    "Object" "undefined" "undefined" "undefined"))
    /\ forallb (fun key =>
                  negb (includes
                          (text_of (GetAnimeComponent.getComponentInfo "constructor"))
                          key))
               (object_keys GetAnimeComponent.components) = true.
Proof.
  intros doc_content.
  split; [reflexivity|]. split; [reflexivity|]. split; [reflexivity|].
  split; [reflexivity|]. split; [reflexivity|]. vm_compute; reflexivity.
Qed.

(** ** Concrete runs *)

Lemma missing_name_always_throws :
  always_throws GetAnimeComponent.handleGetAnimeComponent
                (or_else (VObj []) (VObj [])).
Proof. intros now c. exists TypeError. reflexivity. Qed.

Lemma failing_tool_call_counts_twice_witness :
  let call := (call_tool, tool_call "get_anime_component" (VObj [])) in
  object_get (toolHandlers (fun _ => "") plain_tool plain_tool) "get_anime_component"
  = OwnProp GetAnimeComponent.handleGetAnimeComponent
  /\ always_throws GetAnimeComponent.handleGetAnimeComponent
                   (or_else (VObj []) (VObj []))
  /\ execute_enter (external (boot 0)) (clock (boot 0)) <> None
  /\ (exists e w',
        plain_serve call_tool (tool_call "get_anime_component" (VObj [])) (boot 0)
        = (Throw e, w')
        /\ failures (external w') = failures (external (boot 0)) + 2
        /\ invoked w' = S (S (invoked (boot 0))))
  /\ state (external (after_requests plain_serve [(1, call); (2, call)] (boot 0)))
     = CLOSED
  /\ state (external (after_requests plain_serve
                        [(1, call); (2, call); (3, call)] (boot 0)))
     = OPEN.
Proof.
  intros call.
  assert (object_get (toolHandlers (fun _ => "") plain_tool plain_tool)
                     "get_anime_component"
          = OwnProp GetAnimeComponent.handleGetAnimeComponent) as Hown
    by reflexivity.
  assert (execute_enter (external (boot 0)) (clock (boot 0)) <> None) as Hadm
    by discriminate.
  destruct (failing_tool_call_counts_twice
              (fun _ => "") plain_tool plain_tool (fun _ _ => Throw TypeError)
              VNull VNull VNull VNull (fun _ => ret VNull) (fun _ => ret VNull)
              (boot 0) "get_anime_component" (VObj [])
              GetAnimeComponent.handleGetAnimeComponent
              Hown missing_name_always_throws) as [Hone Hthree].
  destruct (Hthree eq_refl eq_refl eq_refl 1 2 3) as (Hclosed & _ & Hopen & _).
  split; [exact Hown|]. split; [exact missing_name_always_throws|].
  split; [exact Hadm|]. split; [exact (Hone Hadm)|].
  split; [exact Hclosed | exact Hopen].
Defined.

(** C10, refuted as stated: with the breaker OPEN and the cooldown running,
    a [read_resource] request with an empty [uri] is rejected by validation,
    with the validation message and not with 'Circuit breaker is OPEN'. *)
Lemma open_breaker_validation_comes_first :
  state (external open_world) = OPEN
  /\ lastFailureTime (external open_world) = Some 9
  /\ clock open_world - 9 < resetTimeout (options (external open_world))
  /\ plain_serve read_resource (VObj [("uri", VStr "")]) open_world
     = (Throw (Error "Validation failed for read_resource: uri: String must contain at least 1 character(s)"),
        open_world)
  /\ fst (plain_serve read_resource (VObj [("uri", VStr "")]) open_world)
     <> Throw (Error "Circuit breaker is OPEN").
Proof.
  split; [reflexivity|]. split; [reflexivity|]. split; [reflexivity|].
  split; [reflexivity | discriminate].
Qed.

(** The recovery of a tool call goes through HALF_OPEN with two operations
    started: the request handler and, inside it, the tool. *)
Lemma tool_call_trial_starts_two_operations :
  let out := at_time 60009
               (plain_serve call_tool
                  (tool_call "get_anime_component"
                     (VObj [("componentName", VStr "anime")])))
               open_world in
  execute_enter (external open_world) 60009
  = Some (set_state (external open_world) HALF_OPEN)
  /\ invoked (snd out) = S (S (invoked open_world))
  /\ state (external (snd out)) = CLOSED.
Proof. split; [reflexivity|]. split; vm_compute; reflexivity. Qed.

(** A call that names no tool fails in the request handler, before the
    inner [execute]: it is counted once. *)
Lemma unknown_tool_counts_once :
  let out := plain_serve call_tool (tool_call "no_such_tool" (VObj [])) (boot 0) in
  fst out = Throw (Error "Tool not found: no_such_tool")
  /\ failures (external (snd out)) = 1
  /\ invoked (snd out) = 1%nat.
Proof. split; [reflexivity|]. split; reflexivity. Qed.

Lemma open_breaker_rejects_requests_witness :
  state (external open_world) = OPEN
  /\ lastFailureTime (external open_world) = Some 9
  /\ clock open_world - 9 < resetTimeout (options (external open_world))
  /\ validateAndSanitizeParams (method_name list_tools) (VObj []) = Ok (VObj [])
  /\ plain_serve list_tools (VObj []) open_world
     = (Throw (Error "Circuit breaker is OPEN"), open_world).
Proof.
  assert (state (external open_world) = OPEN) as Hst by reflexivity.
  assert (lastFailureTime (external open_world) = Some 9) as Hlast by reflexivity.
  assert (clock open_world - 9 < resetTimeout (options (external open_world)))
    as Hnow by reflexivity.
  assert (validateAndSanitizeParams (method_name list_tools) (VObj []) = Ok (VObj []))
    as Hv by reflexivity.
  destruct (open_breaker_rejects_requests
              (fun _ => "") plain_tool plain_tool (fun _ _ => Throw TypeError)
              VNull VNull VNull VNull (fun _ => ret VNull) (fun _ => ret VNull)
              list_tools (VObj []) open_world 9 Hst Hlast Hnow) as (Hvalid & _ & _).
  split; [exact Hst|]. split; [exact Hlast|]. split; [exact Hnow|].
  split; [exact Hv|]. exact (Hvalid (VObj []) Hv).
Defined.

(** * Further properties *)

(** ** Cache: overwriting, removal, independence of keys *)

(** What a read returns depends on the entry under its key only. *)
Lemma Cache_get_value (key : string) (now : Z) (c : gmap string CacheItem) :
  fst (Cache_get key now c)
  = match c !! key with
    | Some item => if now >? timestamp item + ttl item then VNull else data item
    | None => VNull
    end.
Proof.
  unfold Cache_get. destruct (c !! key) as [item|]; [|reflexivity].
  destruct (now >? timestamp item + ttl item); reflexivity.
Qed.

(** X1. A second [set] on a key replaces the first entry whole (value, time
    and ttl): the map is the one a single [set] would give, the size does
    not grow, and reads return the second value while it is live. *)
Theorem cache_last_write_wins :
  forall (c : gmap string CacheItem) (k : string) (v1 v2 : value)
         (t1 t2 : option Z) (ta tb : Z),
    let c1 := Cache_set k v1 t1 ta c in
    let c2 := Cache_set k v2 t2 tb c1 in
    c2 = Cache_set k v2 t2 tb c
    /\ fst (Cache_size c2) = fst (Cache_size c1)
    /\ forall now, now <= tb + effective_ttl t2 -> Cache_get k now c2 = (v2, c2).
Proof.
  intros c k v1 v2 t1 t2 ta tb c1 c2. subst c1 c2. unfold Cache_set.
  split; [apply insert_insert_eq|]. split.
  - unfold Cache_size. simpl. rewrite map_size_insert, lookup_insert_eq. reflexivity.
  - intros now Hnow.
    rewrite (Cache_get_live k now _ {| data := v2; timestamp := tb;
                                       ttl := effective_ttl t2 |});
      [reflexivity | apply lookup_insert_eq | unfold expired; simpl; lia].
Qed.

(** X2. [delete] reports whether the key was stored, expired or not, and
    [clear] empties the map: after either, a read of the key returns [null]
    at any time; [delete] leaves the reads of every other key as they
    were, and after [clear] the size is 0. *)
Theorem cache_delete_and_clear :
  forall (c : gmap string CacheItem) (k : string),
    (fst (Cache_delete k c) = true <-> is_Some (c !! k))
    /\ (forall now, Cache_get k now (snd (Cache_delete k c))
                    = (VNull, snd (Cache_delete k c)))
    /\ (forall k' now, k' <> k ->
          fst (Cache_get k' now (snd (Cache_delete k c))) = fst (Cache_get k' now c))
    /\ (forall now, Cache_get k now (Cache_clear c) = (VNull, Cache_clear c))
    /\ fst (Cache_size (Cache_clear c)) = 0%nat.
Proof.
  intros c k. unfold Cache_delete, Cache_clear, Cache_size. simpl.
  split; [apply bool_decide_eq_true|]. split; [|split; [|split]].
  - intros now. apply Cache_get_absent, lookup_delete_eq.
  - intros k' now Hne. rewrite !Cache_get_value.
    rewrite lookup_delete_ne by congruence. reflexivity.
  - intros now. apply Cache_get_absent, lookup_empty.
  - apply map_size_empty.
Qed.

(** X3. Keys are independent: neither a [set] nor a [get] on one key (the
    [get] may purge it) changes what a read of another key returns. *)
Theorem cache_keys_independent :
  forall (c : gmap string CacheItem) (k k' : string) (v : value)
         (t : option Z) (t0 now now' : Z),
    k <> k' ->
    fst (Cache_get k' now (Cache_set k v t t0 c)) = fst (Cache_get k' now c)
    /\ fst (Cache_get k' now (snd (Cache_get k now' c))) = fst (Cache_get k' now c).
Proof.
  intros c k k' v t t0 now now' Hne. split.
  - rewrite !Cache_get_value. unfold Cache_set.
    rewrite lookup_insert_ne by exact Hne. reflexivity.
  - rewrite !Cache_get_value. unfold Cache_get.
    destruct (c !! k) as [item|]; [|reflexivity].
    destruct (now' >? timestamp item + ttl item); [|reflexivity].
    simpl. rewrite lookup_delete_ne by exact Hne. reflexivity.
Qed.

Lemma cache_keys_independent_witness :
  "a" <> "b"
  /\ fst (Cache_get "b" 5 (Cache_set "a" VNull None 0 (Cache_set "b" (VStr "x") None 0 ∅)))
     = VStr "x".
Proof.
  assert ("a" <> "b") as Hne by discriminate.
  split; [exact Hne|].
  destruct (cache_keys_independent (Cache_set "b" (VStr "x") None 0 ∅)
              "a" "b" VNull None 0 5 0 Hne) as [Hset _].
  rewrite Hset. vm_compute. reflexivity.
Defined.

(** X4. An entry stored with a negative [ttl] is never served: every read
    at or after the time of the [set] returns [null] and removes it. *)
Theorem cache_negative_ttl_never_served :
  forall (c : gmap string CacheItem) (k : string) (v : value) (t t0 now : Z),
    t < 0 -> t0 <= now ->
    Cache_get k now (Cache_set k v (Some t) t0 c) = (VNull, delete k c).
Proof.
  intros c k v t t0 now Ht Hnow. unfold Cache_set.
  rewrite (Cache_get_expired k now _ {| data := v; timestamp := t0;
                                        ttl := effective_ttl (Some t) |}).
  - rewrite delete_insert_eq. reflexivity.
  - apply lookup_insert_eq.
  - unfold expired, effective_ttl. simpl.
    destruct (Z.eqb_spec t 0); lia.
Qed.

Lemma cache_negative_ttl_never_served_witness :
  -5 < 0 /\ 10 <= 10
  /\ Cache_get "k" 10 (Cache_set "k" (VStr "v") (Some (-5)) 10 ∅) = (VNull, delete "k" ∅).
Proof.
  assert (-5 < 0) as Hneg by reflexivity.
  assert (10 <= 10) as Hle by discriminate.
  split; [exact Hneg|]. split; [exact Hle|].
  exact (cache_negative_ttl_never_served ∅ "k" (VStr "v") (-5) 10 10 Hneg Hle).
Defined.

(** ** Circuit breaker: what the states mean *)

Lemma breaker_inv2_step opts c e c' :
  0 < failureThreshold opts ->
  breaker_inv2 opts c -> step c e = Some c' -> breaker_inv2 opts c'.
Proof.
  intros Hpos (Hinv & Hnn & Hcl & Hlast) Hstep.
  split; [eapply breaker_inv_step; eauto|].
  destruct Hinv as (Hopt & _ & _).
  destruct e as [now | ok now]; simpl in Hstep.
  - destruct (execute_enter (cb c) now) as [b|] eqn:He.
    + injection Hstep as <-.
      apply execute_enter_Some in He as (_ & Hf & Hl & Hst). simpl.
      rewrite Hf, Hl. split; [exact Hnn|].
      destruct Hst as [[Heq Hno] | (Hopen & Hhalf & _)].
      * rewrite Heq. split; assumption.
      * split; [congruence|]. intros _. apply Hlast. congruence.
    + injection Hstep as <-. repeat split; assumption.
  - destruct (inflight c) as [|n]; [discriminate|].
    injection Hstep as <-. unfold execute_settle. destruct ok; simpl.
    + split; [lia|]. split; [intros _; lia | congruence].
    + rewrite Hopt. split; [lia|].
      destruct (Z.geb_spec (failures (cb c) + 1) (failureThreshold opts)).
      * split; [congruence | discriminate].
      * split; [intros _; lia | discriminate].
Qed.

Lemma run_inv2 opts es : forall c c',
  0 < failureThreshold opts ->
  breaker_inv2 opts c -> run c es = Some c' -> breaker_inv2 opts c'.
Proof.
  induction es as [|e es IH]; intros c c' Hpos Hinv Hrun; simpl in Hrun.
  - congruence.
  - destruct (step c e) as [c1|] eqn:Hs; [|discriminate].
    eapply IH; [exact Hpos | | exact Hrun]. eapply breaker_inv2_step; eauto.
Qed.

Lemma breaker_inv2_init opts :
  0 < failureThreshold opts -> breaker_inv2 opts (init_config opts).
Proof.
  intros Hpos. split; [apply breaker_inv_init|]. simpl.
  split; [lia|]. split; [intros _; lia | congruence].
Qed.

(** X5. With a positive threshold the state tells where the failure count
    stands, whatever calls overlapped: the breaker is CLOSED exactly when the
    count is below the threshold, and the count is never negative. *)
Theorem closed_iff_below_threshold :
  forall (opts : CircuitBreakerOptions) (es : list event) (c : Config),
    0 < failureThreshold opts ->
    run (init_config opts) es = Some c ->
    0 <= failures (cb c)
    /\ (state (cb c) = CLOSED <-> failures (cb c) < failureThreshold opts).
Proof.
  intros opts es c Hpos Hrun.
  destruct (run_inv2 opts es _ _ Hpos (breaker_inv2_init opts Hpos) Hrun)
    as ((_ & Hge & _) & Hnn & Hcl & _).
  split; [exact Hnn|]. split; [exact Hcl|].
  intros Hlt. destruct (state (cb c)) eqn:Hs; [reflexivity | |];
    assert (failures (cb c) >= failureThreshold opts) by (apply Hge; congruence);
    lia.
Qed.

Lemma closed_iff_below_threshold_witness :
  0 < failureThreshold external_options
  /\ run (init_config external_options) five_failures = Some opened_config
  /\ (state (cb opened_config) = CLOSED
      <-> failures (cb opened_config) < failureThreshold external_options).
Proof.
  assert (0 < failureThreshold external_options) as Hpos by reflexivity.
  assert (run (init_config external_options) five_failures = Some opened_config)
    as Hrun by (vm_compute; reflexivity).
  split; [exact Hpos|]. split; [exact Hrun|].
  exact (proj2 (closed_iff_below_threshold external_options five_failures
                  opened_config Hpos Hrun)).
Defined.

Lemma rejected_arrivals (c : Config) (t : Z) (arrivals : list Z) :
  state (cb c) = OPEN -> lastFailureTime (cb c) = Some t ->
  Forall (fun a => a - t < resetTimeout (options (cb c))) arrivals ->
  run c (map Arrive arrivals) = Some c.
Proof.
  intros Hst Hl Hall. induction Hall as [|a l Ha _ IH]; [reflexivity|].
  simpl. unfold execute_enter, shouldAttemptReset. rewrite Hst, Hl.
  destruct (Z.geb_spec (a - t) (resetTimeout (options (cb c)))); [lia | exact IH].
Qed.

(** X6. An OPEN breaker is never stuck and rejections cost nothing: it has a
    last failure time [t]; any number of calls arriving less than
    [resetTimeout] after [t] are rejected and leave the configuration as it
    was (the cooldown is not extended); and a call arriving [resetTimeout]
    or more after [t] is admitted, turning the breaker HALF_OPEN. *)
Theorem open_breaker_recovers :
  forall (opts : CircuitBreakerOptions) (es : list event) (c : Config),
    0 < failureThreshold opts ->
    run (init_config opts) es = Some c ->
    state (cb c) = OPEN ->
    exists t,
      lastFailureTime (cb c) = Some t
      /\ (forall arrivals,
            Forall (fun a => a - t < resetTimeout opts) arrivals ->
            run c (map Arrive arrivals) = Some c)
      /\ (forall now,
            now - t >= resetTimeout opts ->
            step c (Arrive now)
            = Some {| cb := set_state (cb c) HALF_OPEN; inflight := S (inflight c) |}).
Proof.
  intros opts es c Hpos Hrun Hopen.
  destruct (run_inv2 opts es _ _ Hpos (breaker_inv2_init opts Hpos) Hrun)
    as ((Hopt & _ & _) & _ & _ & Hlast).
  destruct (lastFailureTime (cb c)) as [t|] eqn:Hl;
    [|exfalso; apply Hlast; congruence].
  exists t. split; [reflexivity|]. split.
  - intros arrivals Hall. apply (rejected_arrivals c t); auto.
    rewrite Hopt. exact Hall.
  - intros now Hnow. simpl. unfold execute_enter, shouldAttemptReset.
    rewrite Hopen, Hl, Hopt.
    destruct (Z.geb_spec (now - t) (resetTimeout opts)); [reflexivity | lia].
Qed.

Lemma open_breaker_recovers_witness :
  0 < failureThreshold external_options
  /\ run (init_config external_options) five_failures = Some opened_config
  /\ state (cb opened_config) = OPEN
  /\ run opened_config (map Arrive [10; 500; 60008]) = Some opened_config
  /\ step opened_config (Arrive 60009) = Some trial_pending.
Proof.
  assert (0 < failureThreshold external_options) as Hpos by reflexivity.
  assert (run (init_config external_options) five_failures = Some opened_config)
    as Hrun by (vm_compute; reflexivity).
  destruct (open_breaker_recovers external_options five_failures opened_config
              Hpos Hrun eq_refl) as (t & Ht & Hrej & Hadm).
  injection Ht as <-.
  split; [exact Hpos|]. split; [exact Hrun|]. split; [reflexivity|]. split.
  - apply Hrej. repeat constructor.
  - apply Hadm. discriminate.
Defined.

(** X7. A trial that fails reopens the breaker and restarts the cooldown:
    from HALF_OPEN, whatever the count, a rejected operation leaves the
    breaker OPEN with the time of that failure as last failure time, so
    calls arriving less than [resetTimeout] after it are rejected. *)
Theorem failed_trial_reopens :
  forall (opts : CircuitBreakerOptions) (es : list event) (c : Config) (now : Z),
    run (init_config opts) es = Some c ->
    state (cb c) = HALF_OPEN ->
    exists c',
      step c (Settle false now) = Some c'
      /\ state (cb c') = OPEN
      /\ lastFailureTime (cb c') = Some now
      /\ failures (cb c') = failures (cb c) + 1
      /\ forall later, later - now < resetTimeout opts ->
                       execute_enter (cb c') later = None.
Proof.
  intros opts es c now Hrun Hhalf.
  destruct (run_inv opts es c Hrun) as (Hopt & Hge & Hfl).
  assert (failures (cb c) >= failureThreshold opts) as Hthr
    by (apply Hge; congruence).
  specialize (Hfl Hhalf). simpl.
  destruct (inflight c) as [|n]; [lia|].
  eexists. split; [reflexivity|].
  assert ((failures (cb c) + 1 >=? failureThreshold (options (cb c))) = true) as Hgeb
    by (rewrite Hopt; apply Z.geb_le; lia).
  unfold execute_settle, onFailure, execute_enter, shouldAttemptReset. simpl.
  rewrite Hgeb, Hopt. repeat split.
  intros later Hlater.
  destruct (Z.geb_spec (later - now) (resetTimeout opts)); [lia | reflexivity].
Qed.

Lemma failed_trial_reopens_witness :
  run (init_config external_options) (five_failures ++ [Arrive 60009])%list
  = Some trial_pending
  /\ state (cb trial_pending) = HALF_OPEN
  /\ exists c', step trial_pending (Settle false 60020) = Some c'
                /\ state (cb c') = OPEN
                /\ lastFailureTime (cb c') = Some 60020.
Proof.
  assert (run (init_config external_options)
              (five_failures ++ [Arrive 60009])%list = Some trial_pending)
    as Hrun by (vm_compute; reflexivity).
  destruct (failed_trial_reopens external_options _ trial_pending 60020
              Hrun eq_refl) as (c' & Hstep & Hst & Hl & _).
  split; [exact Hrun|]. split; [reflexivity|].
  exists c'. repeat split; assumption.
Defined.

(** ** Validation: what [parse] accepts, returns and reports *)

Lemma parse_field_ok (k : string) (sch : field_schema) (v : value) :
  parse_field k sch v = [] <-> field_ok sch v = true.
Proof.
  destruct sch.
  - destruct v; try (simpl; split; discriminate).
    cbv beta iota delta [parse_field field_ok].
    destruct (Nat.ltb_spec (String.length s) 1) as [Hlt|Hge];
      destruct (Nat.ltb_spec 1000 (String.length s)) as [Hbig|Hsmall];
      destruct (Nat.leb_spec 1 (String.length s)) as [Ha|Ha];
      destruct (Nat.leb_spec (String.length s) 1000) as [Hb|Hb];
      simpl; split; intros Hx; try discriminate Hx; try reflexivity; lia.
  - destruct v; simpl; split; intros Hx; try discriminate Hx; reflexivity.
  - simpl. split; reflexivity.
Qed.

Lemma parse_field_path (k : string) (sch : field_schema) (v : value) (i : issue) :
  In i (parse_field k sch v) -> path i = [k].
Proof.
  destruct sch, v; simpl; try tauto;
    try (intros [<-|[]]; reflexivity).
  destruct (String.length s <? 1)%nat, (1000 <? String.length s)%nat; simpl;
    intuition (subst; reflexivity).
Qed.

Lemma flat_map_nil {A B : Type} (f : A -> list B) (l : list A) :
  flat_map f l = [] <-> forall x, In x l -> f x = [].
Proof.
  induction l as [|a l IH]; simpl; [tauto|]. split.
  - intros H. apply app_eq_nil in H as [Ha Hl].
    intros x [<-|Hx]; [exact Ha | apply IH; assumption].
  - intros H. rewrite (H a) by (left; reflexivity). apply IH.
    intros x Hx. apply H. right. exact Hx.
Qed.

Lemma zod_parse_accepts_iff (shape : list (string * field_schema)) (input : value) :
  (exists v, zod_parse shape input = inl v)
  <-> (exists fields,
         input = VObj fields
         /\ forallb (fun '(k, sch) => field_ok sch (get_prop input k)) shape = true).
Proof.
  split.
  - intros [v Hv]. destruct input; try discriminate Hv.
    exists fields. split; [reflexivity|].
    unfold zod_parse in Hv.
    destruct (flat_map _ shape) as [|i l] eqn:Hflat; [|discriminate].
    apply forallb_forall. intros [k sch] Hin.
    apply (parse_field_ok k).
    apply (proj1 (flat_map_nil _ shape) Hflat (k, sch) Hin).
  - intros (fields & -> & Hall). unfold zod_parse.
    rewrite forallb_forall in Hall.
    rewrite (proj2 (flat_map_nil
               (fun '(k, sch) => parse_field k sch (get_prop (VObj fields) k)) shape)).
    + eexists. reflexivity.
    + intros [k sch] Hin. apply parse_field_ok. apply (Hall (k, sch) Hin).
Qed.

(** X8. For a method with a schema, validation succeeds exactly when the
    parameters ([{}] standing in for a falsy value) are an object in which
    every field of the schema is acceptable: a required string has 1 to 1000
    characters, an optional string is absent or a string, an [any] field is
    anything. *)
Theorem validation_accepts_iff :
  forall (method : string) (shape : list (string * field_schema)) (params : value),
    object_get methodSchemas method = OwnProp shape ->
    ((exists v, validateAndSanitizeParams method params = Ok v)
     <-> (exists fields,
            or_else params (VObj []) = VObj fields
            /\ forallb (fun '(k, sch) =>
                          field_ok sch (get_prop (or_else params (VObj [])) k))
                       shape = true)).
Proof.
  intros method shape params Hown.
  rewrite <- zod_parse_accepts_iff.
  unfold validateAndSanitizeParams. rewrite Hown.
  destruct (zod_parse shape (or_else params (VObj []))) as [v|issues].
  - split; intros _; eexists; reflexivity.
  - split; intros [v Hv]; discriminate.
Qed.

Lemma validation_accepts_iff_witness :
  object_get methodSchemas "search_anime_examples" = OwnProp [("query", stringSchema)]
  /\ ((exists v, validateAndSanitizeParams "search_anime_examples"
                   (VObj [("query", VStr "grid")]) = Ok v)
      <-> (exists fields,
             or_else (VObj [("query", VStr "grid")]) (VObj []) = VObj fields
             /\ forallb (fun '(k, sch) =>
                           field_ok sch
                             (get_prop (or_else (VObj [("query", VStr "grid")])
                                                (VObj [])) k))
                        [("query", stringSchema)] = true)).
Proof.
  assert (object_get methodSchemas "search_anime_examples"
          = OwnProp [("query", stringSchema)]) as Hown by reflexivity.
  split; [exact Hown|].
  exact (validation_accepts_iff "search_anime_examples" _
           (VObj [("query", VStr "grid")]) Hown).
Defined.

Lemma parsed_object_lookup (shape : list (string * field_schema))
      (fields : list (string * value)) (k : string) :
  assoc k (flat_map (fun '(k', _) =>
                       match assoc k' fields with
                       | Some x => [(k', x)]
                       | None => []
                       end) shape)
  = if existsb (String.eqb k) (object_keys shape) then assoc k fields else None.
Proof.
  induction shape as [|[k0 sch] shape IH]; [reflexivity|].
  simpl. destruct (String.eqb_spec k k0) as [->|Hne]; simpl.
  - destruct (assoc k0 fields) as [x|] eqn:Hx; simpl.
    + rewrite String.eqb_refl. reflexivity.
    + rewrite IH. destruct (existsb _ _); reflexivity.
  - destruct (assoc k0 fields) as [x|]; simpl; [|exact IH].
    destruct (String.eqb_spec k k0); [contradiction | exact IH].
Qed.

(** X9. What a successful validation hands to the handler: an object whose
    own properties are the fields the method's schema declares, with the
    values the request gave them; every other own key of the request is
    dropped.  [handleRequest] calls the handler with that object, not with
    the parameters of the request. *)
Theorem validated_params_are_the_schema_fields :
  forall (method : string) (shape : list (string * field_schema))
         (params v : value),
    object_get methodSchemas method = OwnProp shape ->
    validateAndSanitizeParams method params = Ok v ->
    (exists fields, v = VObj fields)
    /\ (forall k,
          own_prop v k
          = if existsb (String.eqb k) (object_keys shape)
            then own_prop params k else None)
    /\ (forall (T : Type) (handler : value -> M T) (w : World),
          handleRequest method params handler w = execute (handler v) w).
Proof.
  intros method shape params v Hown Hv.
  pose proof Hv as Hvalid.
  unfold validateAndSanitizeParams in Hv. rewrite Hown in Hv.
  destruct (zod_parse shape (or_else params (VObj []))) as [v'|issues] eqn:Hz;
    [|discriminate].
  injection Hv as <-.
  unfold zod_parse in Hz.
  destruct (or_else params (VObj [])) as [| | | | | |fields] eqn:Hp;
    try discriminate Hz.
  destruct (flat_map _ shape); [|discriminate].
  injection Hz as <-.
  split; [eexists; reflexivity|]. split.
  - intros k. simpl. rewrite parsed_object_lookup.
    assert (own_prop params k = assoc k fields) as ->.
    { unfold or_else in Hp. destruct (truthy params) eqn:Ht.
      - subst params. reflexivity.
      - injection Hp as <-. destruct params; try discriminate Ht; reflexivity. }
    reflexivity.
  - intros T handler w. unfold handleRequest. rewrite Hvalid. reflexivity.
Qed.

Lemma validated_params_are_the_schema_fields_witness :
  let params := VObj [("uri", VStr "resource:x"); ("_meta", VNull)] in
  object_get methodSchemas "read_resource" = OwnProp [("uri", stringSchema)]
  /\ validateAndSanitizeParams "read_resource" params
     = Ok (VObj [("uri", VStr "resource:x")])
  /\ own_prop (VObj [("uri", VStr "resource:x")]) "_meta" = None
  /\ fst (handleRequest "read_resource" params (fun v => ret v) (boot 0))
     = Ok (VObj [("uri", VStr "resource:x")]).
Proof.
  intros params.
  assert (object_get methodSchemas "read_resource" = OwnProp [("uri", stringSchema)])
    as Hown by reflexivity.
  assert (validateAndSanitizeParams "read_resource" params
          = Ok (VObj [("uri", VStr "resource:x")])) as Hv by reflexivity.
  destruct (validated_params_are_the_schema_fields "read_resource" _ params _ Hown Hv)
    as (_ & Hfields & Hhandler).
  split; [exact Hown|]. split; [exact Hv|]. split.
  - exact (Hfields "_meta").
  - rewrite (Hhandler value (fun v => ret v) (boot 0)). reflexivity.
Defined.

Lemma string_app_assoc (a b c : string) :
  (a +:+ b) +:+ c = a +:+ b +:+ c.
Proof.
  induction a as [|x a IH]; [reflexivity|].
  rewrite !append_cons. f_equal. exact IH.
Qed.

Lemma failing_field_has_issue (shape : list (string * field_schema)) (input : value)
      (k : string) (sch : field_schema) :
  In (k, sch) shape -> field_ok sch (get_prop input k) = false ->
  exists i, In i (flat_map (fun '(k, sch) => parse_field k sch (get_prop input k)) shape)
            /\ path i = [k].
Proof.
  intros Hin Hbad.
  destruct (parse_field k sch (get_prop input k)) as [|i l] eqn:Hp.
  - apply parse_field_ok in Hp. congruence.
  - exists i. split.
    + apply in_flat_map. exists (k, sch). split; [exact Hin|]. rewrite Hp. left. reflexivity.
    + apply (parse_field_path k sch (get_prop input k)). rewrite Hp. left. reflexivity.
Qed.

(** X10. The validation error reports every violation: when the parameters
    are an object, the message starts with the method name and names each
    field of the schema whose value is not acceptable. *)
Theorem validation_error_names_every_field :
  forall (method : string) (shape : list (string * field_schema))
         (fields : list (string * value)) (k : string) (sch : field_schema),
    object_get methodSchemas method = OwnProp shape ->
    In (k, sch) shape ->
    field_ok sch (get_prop (VObj fields) k) = false ->
    exists msg,
      validateAndSanitizeParams method (VObj fields) = Throw (Error msg)
      /\ String.prefix ("Validation failed for " +:+ method +:+ ": ") msg = true
      /\ includes msg k = true.
Proof.
  intros method shape fields k sch Hown Hin Hbad.
  unfold validateAndSanitizeParams. rewrite Hown.
  change (or_else (VObj fields) (VObj [])) with (VObj fields).
  destruct (failing_field_has_issue shape (VObj fields) k sch Hin Hbad)
    as (i & Hi & Hpath).
  unfold zod_parse.
  destruct (flat_map _ shape) as [|i0 l] eqn:Hflat; [destruct Hi|].
  eexists. split; [reflexivity|]. unfold validation_message. split.
  - rewrite <- !string_app_assoc. apply prefix_app, prefix_refl.
  - do 3 apply includes_app_r. apply join_mentions.
    exists (issue_text i). split; [apply in_map, Hi|].
    unfold issue_text. rewrite Hpath. apply includes_app_l. apply includes_refl.
Qed.

Lemma validation_error_names_every_field_witness :
  object_get methodSchemas "get_prompt"
  = OwnProp [("name", stringSchema); ("arguments", anyOptional)]
  /\ In ("name", stringSchema) [("name", stringSchema); ("arguments", anyOptional)]
  /\ field_ok stringSchema (get_prop (VObj [("name", VNum 3)]) "name") = false
  /\ exists msg,
       validateAndSanitizeParams "get_prompt" (VObj [("name", VNum 3)])
       = Throw (Error msg)
       /\ includes msg "name" = true.
Proof.
  assert (object_get methodSchemas "get_prompt"
          = OwnProp [("name", stringSchema); ("arguments", anyOptional)])
    as Hown by reflexivity.
  assert (In ("name", stringSchema)
             [("name", stringSchema); ("arguments", anyOptional)]) as Hin
    by (left; reflexivity).
  assert (field_ok stringSchema (get_prop (VObj [("name", VNum 3)]) "name") = false)
    as Hbad by reflexivity.
  destruct (validation_error_names_every_field "get_prompt" _
              [("name", VNum 3)] "name" stringSchema Hown Hin Hbad)
    as (msg & Hmsg & _ & Hincl).
  split; [exact Hown|]. split; [exact Hin|]. split; [exact Hbad|].
  exists msg. split; assumption.
Defined.

(** ** [sanitizeString] *)

Lemma has_gt_replace_all (m : string -> option nat) (s : string) :
  has_gt s = false -> forall k, has_gt (replace_all m s k) = false.
Proof.
  induction s as [|c s IH]; intros H k; [reflexivity|].
  simpl in H. apply orb_false_iff in H as [Hc Hs].
  simpl. destruct k as [|k]; [|apply IH, Hs].
  destruct (m (String c s)) as [[|n]|]; simpl; rewrite ?Hc; simpl; apply IH, Hs.
Qed.

Lemma up_to_gt_none (s : string) : up_to_gt s = None -> has_gt s = false.
Proof.
  induction s as [|c s IH]; [reflexivity|]. simpl.
  destruct (Ascii.eqb c ">"); [discriminate|].
  destruct (up_to_gt s); [discriminate|]. intros _. apply IH. reflexivity.
Qed.

Lemma replace_all_cons (m : string -> option nat) (c : ascii) (s : string) (k : nat) :
  replace_all m (String c s) k
  = match k with
    | S k' => replace_all m s k'
    | O => match m (String c s) with
           | Some (S n) => replace_all m s n
           | _ => String c (replace_all m s 0)
           end
    end.
Proof. reflexivity. Qed.

Lemma has_tag_cons (c : ascii) (s : string) :
  has_tag (String c s) = ((Ascii.eqb c "<" && has_gt s) || has_tag s)%bool.
Proof. reflexivity. Qed.

Lemma tag_match_none (c : ascii) (s : string) :
  match tag_match (String c s) with Some (S _) => False | _ => True end ->
  (Ascii.eqb c "<" && has_gt s)%bool = false.
Proof.
  unfold tag_match. destruct (Ascii.eqb c "<"); [|reflexivity].
  destruct (up_to_gt s) eqn:Hgt; [intros []|].
  intros _. apply up_to_gt_none, Hgt.
Qed.

Lemma has_tag_replace_all (s : string) :
  forall k, has_tag (replace_all tag_match s k) = false.
Proof.
  induction s as [|c s IH]; intros k; [reflexivity|].
  rewrite replace_all_cons. destruct k as [|k]; [|apply IH].
  pose proof (tag_match_none c s) as Hnone.
  destruct (tag_match (String c s)) as [[|n]|]; try apply IH;
    rewrite has_tag_cons, IH, orb_false_r;
    destruct (Ascii.eqb c "<"); try reflexivity;
    simpl in Hnone |- *; apply has_gt_replace_all, Hnone; exact I.
Qed.

Lemma has_tag_String (c : ascii) (s : string) :
  has_tag (String c s) = false -> has_tag s = false.
Proof. simpl. intros H. apply orb_false_iff in H as [_ H]. exact H. Qed.

Lemma no_tag_trim_start (s : string) :
  has_tag s = false -> has_tag (trim_start s) = false.
Proof.
  induction s as [|c s IH]; intros H; [reflexivity|].
  simpl. destruct (white_space c); [apply IH, (has_tag_String c), H | exact H].
Qed.

Lemma has_gt_trim_end (s : string) :
  has_gt s = false -> has_gt (trim_end s) = false.
Proof.
  induction s as [|c s IH]; intros H; [reflexivity|].
  simpl in H. apply orb_false_iff in H as [Hc Hs]. specialize (IH Hs).
  simpl. destruct (trim_end s) as [|d r].
  - destruct (white_space c); simpl; rewrite ?Hc; reflexivity.
  - change (has_gt (String c (String d r)))
      with (Ascii.eqb c ">" || has_gt (String d r))%bool.
    rewrite Hc, IH. reflexivity.
Qed.

Lemma no_tag_trim_end (s : string) :
  has_tag s = false -> has_tag (trim_end s) = false.
Proof.
  induction s as [|c s IH]; intros H; [reflexivity|].
  simpl in H. apply orb_false_iff in H as [Hc Hs]. specialize (IH Hs).
  simpl. destruct (trim_end s) as [|d r] eqn:Ht.
  - destruct (white_space c); simpl; [reflexivity|].
    rewrite andb_false_r. reflexivity.
  - change (has_tag (String c (String d r)))
      with ((Ascii.eqb c "<" && has_gt (String d r)) || has_tag (String d r))%bool.
    rewrite IH, orb_false_r.
    destruct (Ascii.eqb c "<"); [|reflexivity]. simpl in Hc.
    rewrite <- Ht. apply has_gt_trim_end, Hc.
Qed.

Lemma has_gt_substring (n : nat) (s : string) :
  has_gt s = false -> has_gt (String.substring 0 n s) = false.
Proof.
  revert n. induction s as [|c s IH]; intros n H; [destruct n; reflexivity|].
  simpl in H. apply orb_false_iff in H as [Hc Hs].
  destruct n as [|n]; [reflexivity|]. simpl. rewrite Hc. apply IH, Hs.
Qed.

Lemma no_tag_substring (n : nat) (s : string) :
  has_tag s = false -> has_tag (String.substring 0 n s) = false.
Proof.
  revert n. induction s as [|c s IH]; intros n H; [destruct n; reflexivity|].
  simpl in H. apply orb_false_iff in H as [Hc Hs].
  destruct n as [|n]; [reflexivity|]. simpl. rewrite (IH n Hs), orb_false_r.
  destruct (Ascii.eqb c "<"); [|reflexivity]. simpl in Hc.
  apply has_gt_substring, Hc.
Qed.

Lemma length_substring_0 (n : nat) (s : string) :
  (String.length (String.substring 0 n s) <= n)%nat.
Proof.
  revert n. induction s as [|c s IH]; intros [|n]; simpl; try lia.
  specialize (IH n). lia.
Qed.

(** X11. Whatever the input, the sanitised string has at most 1000
    characters and contains no complete tag: no [<] with a [>] anywhere
    after it. *)
Theorem sanitized_has_no_tag :
  forall input : string,
    (String.length (sanitizeString input) <= 1000)%nat
    /\ has_tag (sanitizeString input) = false.
Proof.
  intros input. unfold sanitizeString, trim. split.
  - apply length_substring_0.
  - apply no_tag_substring, no_tag_trim_end, no_tag_trim_start, has_tag_replace_all.
Qed.

Lemma lower_char_lt (c : ascii) :
  Ascii.eqb (lower_char c) "<" = true -> Ascii.eqb c "<" = true.
Proof.
  destruct c as [[] [] [] [] [] [] [] []]; vm_compute; intros H;
    first [exact H | reflexivity].
Qed.

Lemma replace_all_plain (m : string -> option nat) (s : string) :
  (forall c r, Ascii.eqb c "<" = false -> m (String c r) = None) ->
  has_lt s = false -> replace_all m s 0 = s.
Proof.
  intros Hm. induction s as [|c s IH]; intros H; [reflexivity|].
  simpl in H. apply orb_false_iff in H as [Hc Hs].
  simpl. rewrite (Hm c s Hc). f_equal. apply IH, Hs.
Qed.

(** X12. Text without any [<] is only trimmed and cut: nothing else is
    removed from it. *)
Theorem sanitize_plain_text :
  forall input : string,
    has_lt input = false ->
    sanitizeString input = String.substring 0 1000 (trim input).
Proof.
  intros input Hplain. unfold sanitizeString.
  rewrite (replace_all_plain script_match input); [|
    | exact Hplain].
  - rewrite (replace_all_plain tag_match input); [reflexivity | | exact Hplain].
    intros c r Hc. unfold tag_match. rewrite Hc. reflexivity.
  - intros c r Hc. unfold script_match.
    change (starts_with_ci "<script" (String c r))
      with (if Ascii.eqb (lower_char c) "<" then starts_with_ci "script" r else None).
    destruct (Ascii.eqb (lower_char c) "<") eqn:Hl; [|reflexivity].
    apply lower_char_lt in Hl. congruence.
Qed.

Lemma sanitize_plain_text_witness :
  has_lt "  a > b  " = false /\ sanitizeString "  a > b  " = "a > b".
Proof.
  assert (has_lt "  a > b  " = false) as Hplain by reflexivity.
  split; [exact Hplain|].
  rewrite (sanitize_plain_text "  a > b  " Hplain). reflexivity.
Defined.

(** ** Lookups: spelling and the cache *)

(** X13. A lookup that finds something depends on the normalised name only:
    component names may differ in case and parentheses, example types and
    documentation topics in case and in [-] against [_], and the response is
    the same. *)
Theorem lookup_ignores_spelling :
  forall (given : Given) (a b : string),
    (strip_parens (toLowerCase a) = strip_parens (toLowerCase b) ->
     object_get GetAnimeComponent.components (strip_parens (toLowerCase a)) <> NoProp ->
     GetAnimeComponent.getComponentInfo a = GetAnimeComponent.getComponentInfo b)
    /\ (dash_underscores (toLowerCase a) = dash_underscores (toLowerCase b) ->
        object_get (GetAnimeExample.examples given) (dash_underscores (toLowerCase a))
        <> NoProp ->
        GetAnimeExample.getExample given a = GetAnimeExample.getExample given b)
    /\ (dash_underscores (toLowerCase a) = dash_underscores (toLowerCase b) ->
        object_get (GetAnimeDocs.docs (txt_docs given)) (dash_underscores (toLowerCase a))
        <> NoProp ->
        GetAnimeDocs.getDocumentation (txt_docs given) a
        = GetAnimeDocs.getDocumentation (txt_docs given) b).
Proof.
  intros given a b. split; [|split]; intros Heq Hfound.
  - unfold GetAnimeComponent.getComponentInfo. rewrite <- Heq.
    destruct (object_get _ _); [reflexivity | reflexivity | contradiction].
  - unfold GetAnimeExample.getExample. rewrite <- Heq.
    destruct (object_get _ _); [reflexivity | reflexivity | contradiction].
  - unfold GetAnimeDocs.getDocumentation. rewrite <- Heq.
    destruct (object_get _ _); [reflexivity | reflexivity | contradiction].
Qed.

Lemma truthy_text_response (x : value) : truthy (text_response x) = true.
Proof. reflexivity. Qed.

Lemma component_info_truthy (s : string) :
  truthy (GetAnimeComponent.getComponentInfo s) = true.
Proof.
  unfold GetAnimeComponent.getComponentInfo.
  destruct (object_get _ _); reflexivity.
Qed.

Lemma example_truthy (given : Given) (s : string) :
  truthy (GetAnimeExample.getExample given s) = true.
Proof.
  unfold GetAnimeExample.getExample. destruct (object_get _ _); reflexivity.
Qed.

Lemma documentation_truthy (dc : string -> string) (s : string) :
  truthy (GetAnimeDocs.getDocumentation dc s) = true.
Proof.
  unfold GetAnimeDocs.getDocumentation. destruct (object_get _ _); reflexivity.
Qed.

Lemma search_truthy (s : string) :
  truthy (SearchAnimeExamples.searchExamples s) = true.
Proof.
  unfold SearchAnimeExamples.searchExamples. destruct (List.filter _ _); reflexivity.
Qed.

(** A value stored with a positive time to live is read back until it
    expires. *)
Lemma stored_then_read (key : string) (r : value) (ttl_ms t0 t1 : Z)
      (c : gmap string CacheItem) :
  0 < ttl_ms -> t1 <= t0 + ttl_ms ->
  Cache_get key t1 (Cache_set key r (Some ttl_ms) t0 c)
  = (r, Cache_set key r (Some ttl_ms) t0 c).
Proof.
  intros Hpos Hle. unfold Cache_set.
  rewrite (Cache_get_live key t1 _ {| data := r; timestamp := t0;
                                      ttl := effective_ttl (Some ttl_ms) |});
    [reflexivity | apply lookup_insert_eq |].
  unfold expired, effective_ttl. simpl.
  destruct (Z.eqb_spec ttl_ms 0); lia.
Qed.

(** The shape the four string-keyed tool handlers share. *)
Lemma served_again_shape (handler : tool_handler) (field prefix : string)
      (ttl_ms : Z) (compute : string -> value) :
  0 < ttl_ms ->
  (forall s, truthy (compute s) = true) ->
  (forall s now c,
      handler (arg field s) now c
      = let (cached, c1) := Cache_get (prefix +:+ toLowerCase s) now c in
        if truthy cached then (Ok cached, c1)
        else (Ok (compute s),
              Cache_set (prefix +:+ toLowerCase s) (compute s) (Some ttl_ms) now c1)) ->
  served_again handler field prefix ttl_ms compute.
Proof.
  intros Hpos Htruthy Hshape c a b t0 Heq Hmiss. cbv zeta.
  assert (effective_ttl (Some ttl_ms) = ttl_ms) as Httl
    by (unfold effective_ttl; destruct (Z.eqb_spec ttl_ms 0); [lia | reflexivity]).
  rewrite !Hshape.
  set (key := prefix +:+ toLowerCase a) in *.
  destruct (Cache_get key t0 c) as [cached c1] eqn:Hget.
  simpl in Hmiss. rewrite Hmiss. cbn [fst snd].
  assert (Cache_set key (compute a) (Some ttl_ms) t0 c1 !! key
          = Some {| data := compute a; timestamp := t0; ttl := ttl_ms |}) as Hstored
    by (unfold Cache_set; rewrite lookup_insert_eq, Httl; reflexivity).
  split; [reflexivity|]. split; [exact Hstored|]. split.
  - intros t1 Hle. rewrite Hshape, <- Heq. fold key.
    rewrite (stored_then_read _ _ _ _ _ _ Hpos Hle), Htruthy. reflexivity.
  - intros t1 Hgt. rewrite Hshape, <- Heq. fold key.
    rewrite (Cache_get_expired key t1 _ _ Hstored) by (unfold expired; simpl; lia).
    cbn [truthy fst snd]. split; [reflexivity|].
    unfold Cache_set. rewrite lookup_insert_eq, Httl. reflexivity.
Qed.

(** X14. Each of the four lookup and search handlers keeps its response
    for exactly its time to live: 30 minutes for components and examples, 15
    for searches, 60 for documentation.  The entry is stored with that time
    to live; up to it the second caller gets the response computed for the
    first caller's spelling; after it the response is computed again, for
    the second caller's spelling, and stored anew. *)
Theorem repeated_lookup_served_from_cache :
  forall given : Given,
    served_again GetAnimeComponent.handleGetAnimeComponent
                 "componentName" "anime-component-" (30 * 60 * 1000)
                 GetAnimeComponent.getComponentInfo
    /\ served_again (GetAnimeExample.handleGetAnimeExample given)
                    "exampleType" "anime-example-" (30 * 60 * 1000)
                    (GetAnimeExample.getExample given)
    /\ served_again SearchAnimeExamples.handleSearchAnimeExamples
                    "query" "anime-examples-search-" (15 * 60 * 1000)
                    SearchAnimeExamples.searchExamples
    /\ served_again (GetAnimeDocs.handleGetAnimeDocs (txt_docs given))
                    "topic" "anime-docs-" (60 * 60 * 1000)
                    (GetAnimeDocs.getDocumentation (txt_docs given)).
Proof.
  intros given.
  split; [|split; [|split]]; apply served_again_shape;
    first [ reflexivity
          | apply component_info_truthy | apply example_truthy
          | apply search_truthy | apply documentation_truthy
          | intros s now c; reflexivity ].
Qed.

Lemma lookup_ignores_spelling_witness :
  strip_parens (toLowerCase "Timeline") = strip_parens (toLowerCase "TIMELINE()")
  /\ object_get GetAnimeComponent.components (strip_parens (toLowerCase "Timeline"))
     <> NoProp
  /\ GetAnimeComponent.getComponentInfo "Timeline"
     = GetAnimeComponent.getComponentInfo "TIMELINE()".
Proof.
  assert (strip_parens (toLowerCase "Timeline") = strip_parens (toLowerCase "TIMELINE()"))
    as Heq by reflexivity.
  assert (object_get GetAnimeComponent.components (strip_parens (toLowerCase "Timeline"))
          <> NoProp) as Hfound by discriminate.
  split; [exact Heq|]. split; [exact Hfound|].
  exact (proj1 (lookup_ignores_spelling plain_given "Timeline" "TIMELINE()") Heq Hfound).
Defined.

Lemma repeated_lookup_served_from_cache_witness :
  let first := GetAnimeComponent.handleGetAnimeComponent
                 (arg "componentName" "Nope") 0 ∅ in
  toLowerCase "Nope" = toLowerCase "NOPE"
  /\ truthy (fst (Cache_get ("anime-component-" +:+ toLowerCase "Nope") 0 ∅)) = false
  /\ 5 <= 0 + 30 * 60 * 1000
  /\ GetAnimeComponent.handleGetAnimeComponent (arg "componentName" "NOPE") 5 (snd first)
     = first
  /\ 0 + 30 * 60 * 1000 < 1800001
  /\ fst (GetAnimeComponent.handleGetAnimeComponent
            (arg "componentName" "NOPE") 1800001 (snd first))
     = Ok (GetAnimeComponent.getComponentInfo "NOPE").
Proof.
  intros first.
  assert (toLowerCase "Nope" = toLowerCase "NOPE") as Heq by reflexivity.
  assert (truthy (fst (Cache_get ("anime-component-" +:+ toLowerCase "Nope") 0 ∅))
          = false) as Hmiss by reflexivity.
  assert (5 <= 0 + 30 * 60 * 1000) as Hle by discriminate.
  assert (0 + 30 * 60 * 1000 < 1800001) as Hgt by reflexivity.
  destruct (proj1 (repeated_lookup_served_from_cache plain_given)
              ∅ "Nope" "NOPE" 0 Heq Hmiss) as (_ & _ & Hwithin & Hafter).
  split; [exact Heq|]. split; [exact Hmiss|]. split; [exact Hle|].
  split; [exact (Hwithin 5 Hle)|]. split; [exact Hgt|].
  exact (proj1 (Hafter 1800001 Hgt)).
Defined.

Lemma list_handler_hit (params : value) (key : string) (r : value)
      (now : Z) (c : gmap string CacheItem) :
  "anime-components-list-" +:+ to_string (or_else (get_prop params "category") (VStr "all"))
  = key ->
  Cache_get key now c = (r, c) -> truthy r = true ->
  ListAnimeComponents.handleListAnimeComponents params now c = (Ok r, c).
Proof.
  intros Hkey Hget Htruthy. unfold ListAnimeComponents.handleListAnimeComponents.
  cbv zeta. rewrite Hkey, Hget, Htruthy. reflexivity.
Qed.

Lemma Cache_get_lookup_ne (k k' : string) (now : Z) (c : gmap string CacheItem) :
  k <> k' -> snd (Cache_get k now c) !! k' = c !! k'.
Proof.
  intros Hne. unfold Cache_get.
  destruct (c !! k) as [item|]; [|reflexivity].
  destruct (now >? timestamp item + ttl item); [|reflexivity].
  simpl. apply lookup_delete_ne, Hne.
Qed.

(** The read-or-compute-and-store step the handlers share. *)
Lemma lookup_or_store_ne (k k' : string) (r : value) (t : option Z) (now : Z)
      (c : gmap string CacheItem) :
  k <> k' ->
  snd (let (cached, c1) := Cache_get k now c in
       if truthy cached then (Ok cached, c1)
       else (Ok r, Cache_set k r t now c1)) !! k' = c !! k'.
Proof.
  intros Hne. pose proof (Cache_get_lookup_ne k k' now c Hne) as Hget.
  destruct (Cache_get k now c) as [cached c1]. simpl in Hget.
  destruct (truthy cached); simpl; [exact Hget|].
  unfold Cache_set. rewrite lookup_insert_ne by exact Hne. exact Hget.
Qed.

Lemma tool_keeps_to_its_prefix (given : Given) (h : tool_handler) (p : string) :
  In (h, p) (tool_cache_prefixes given) ->
  forall params now c k,
    (forall x, k <> p +:+ x) -> snd (h params now c) !! k = c !! k.
Proof.
  intros Hin params now c k Hk. simpl in Hin.
  destruct Hin as [[= <- <-]|[[= <- <-]|[[= <- <-]|[[= <- <-]|[[= <- <-]|[]]]]]].
  - unfold GetAnimeComponent.handleGetAnimeComponent.
    destruct (get_prop params "componentName"); try reflexivity.
    apply lookup_or_store_ne. intros Heq. exact (Hk _ (eq_sym Heq)).
  - unfold ListAnimeComponents.handleListAnimeComponents. cbv zeta.
    set (key := "anime-components-list-"
                +:+ to_string (or_else (get_prop params "category") (VStr "all"))).
    assert (key <> k) as Hne by (intros Heq; exact (Hk _ (eq_sym Heq))).
    pose proof (Cache_get_lookup_ne key k now c Hne) as Hget.
    destruct (Cache_get key now c) as [cached c1]. simpl in Hget.
    destruct (truthy cached); [exact Hget|].
    destruct (truthy (get_prop params "category")).
    + destruct (get_prop params "category"); simpl; try exact Hget.
      unfold Cache_set. rewrite lookup_insert_ne by exact Hne. exact Hget.
    + simpl. unfold Cache_set. rewrite lookup_insert_ne by exact Hne. exact Hget.
  - unfold GetAnimeExample.handleGetAnimeExample.
    destruct (get_prop params "exampleType"); try reflexivity.
    apply lookup_or_store_ne. intros Heq. exact (Hk _ (eq_sym Heq)).
  - unfold SearchAnimeExamples.handleSearchAnimeExamples.
    destruct (get_prop params "query"); try reflexivity.
    apply lookup_or_store_ne. intros Heq. exact (Hk _ (eq_sym Heq)).
  - unfold GetAnimeDocs.handleGetAnimeDocs.
    destruct (get_prop params "topic"); try reflexivity.
    apply lookup_or_store_ne. intros Heq. exact (Hk _ (eq_sym Heq)).
Qed.

Lemma tool_prefixes_disjoint (given : Given) (p p' : string) :
  In p (map snd (tool_cache_prefixes given)) ->
  In p' (map snd (tool_cache_prefixes given)) ->
  p <> p' ->
  forall x y, p' +:+ y <> p +:+ x.
Proof.
  intros Hp Hp' Hne x y. simpl in Hp, Hp'.
  destruct Hp as [<-|[<-|[<-|[<-|[<-|[]]]]]];
    destruct Hp' as [<-|[<-|[<-|[<-|[<-|[]]]]]];
    try (exfalso; apply Hne; reflexivity);
    cbv [append]; intros H; discriminate H.
Qed.

(** X15. The tools keep to their own cache keys: a call of one tool,
    whatever its arguments and its outcome, leaves every entry stored under
    a key of another tool as it was.  The key prefixes of two tools never
    give the same key. *)
Theorem tools_keep_to_their_keys :
  forall (given : Given) (h h' : tool_handler) (p p' : string),
    In (h, p) (tool_cache_prefixes given) ->
    In (h', p') (tool_cache_prefixes given) ->
    p <> p' ->
    forall (params : value) (now : Z) (c : gmap string CacheItem) (y : string),
      snd (h params now c) !! (p' +:+ y) = c !! (p' +:+ y)
      /\ forall x, p +:+ x <> p' +:+ y.
Proof.
  intros given h h' p p' Hin Hin' Hne params now c y.
  assert (forall x, p' +:+ y <> p +:+ x) as Hkeys.
  { intros x. apply (tool_prefixes_disjoint given p p'); [| |exact Hne].
    - apply (in_map snd _ _ Hin).
    - apply (in_map snd _ _ Hin'). }
  split.
  - apply (tool_keeps_to_its_prefix given h p Hin). exact Hkeys.
  - intros x Heq. exact (Hkeys x (eq_sym Heq)).
Qed.

Lemma tools_keep_to_their_keys_witness :
  In (GetAnimeComponent.handleGetAnimeComponent, "anime-component-")
     (tool_cache_prefixes plain_given)
  /\ In (GetAnimeDocs.handleGetAnimeDocs (txt_docs plain_given), "anime-docs-")
        (tool_cache_prefixes plain_given)
  /\ "anime-component-" <> "anime-docs-"
  /\ snd (GetAnimeComponent.handleGetAnimeComponent (arg "componentName" "anime") 0 ∅)
       !! ("anime-docs-" +:+ "easing")
     = (∅ : gmap string CacheItem) !! ("anime-docs-" +:+ "easing").
Proof.
  assert (In (GetAnimeComponent.handleGetAnimeComponent, "anime-component-")
             (tool_cache_prefixes plain_given)) as H1 by (left; reflexivity).
  assert (In (GetAnimeDocs.handleGetAnimeDocs (txt_docs plain_given), "anime-docs-")
             (tool_cache_prefixes plain_given)) as H2
    by (do 4 right; left; reflexivity).
  assert ("anime-component-" <> "anime-docs-") as H3 by discriminate.
  split; [exact H1|]. split; [exact H2|]. split; [exact H3|].
  exact (proj1 (tools_keep_to_their_keys plain_given _ _ _ _ H1 H2 H3
                  (arg "componentName" "anime") 0 ∅ "easing")).
Defined.

(** X16. The unfiltered listing and the listing for the category "all"
    share one cache entry.  After a listing for "all" that found no live
    entry, a listing without category (or with any falsy one) returns that
    response for the next hour: the text that no component was found for
    the category "all". *)
Theorem listing_all_shadows_unfiltered :
  forall (c : gmap string CacheItem) (params : value) (t0 t1 : Z),
    truthy (get_prop params "category") = false ->
    t1 <= t0 + 60 * 60 * 1000 ->
    truthy (fst (Cache_get "anime-components-list-all" t0 c)) = false ->
    let first := ListAnimeComponents.handleListAnimeComponents
                   (arg "category" "all") t0 c in
    ListAnimeComponents.handleListAnimeComponents params t1 (snd first) = first
    /\ exists text,
         fst first = Ok (text_response (VStr text))
         /\ includes text "No components found for category" = true.
Proof.
  intros c params t0 t1 Hfalsy Hle Hmiss first.
  set (r := text_response
              (VStr (ListAnimeComponents.formatComponentsList
                       (ListAnimeComponents.filterComponents "all") (VStr "all")))).
  assert (first = (Ok r, Cache_set "anime-components-list-all" r
                           (Some (60 * 60 * 1000)) t0
                           (snd (Cache_get "anime-components-list-all" t0 c))))
    as ->.
  { subst first. unfold ListAnimeComponents.handleListAnimeComponents.
    change (get_prop (arg "category" "all") "category") with (VStr "all").
    cbv beta iota zeta.
    change ("anime-components-list-" +:+ to_string (or_else (VStr "all") (VStr "all")))
      with "anime-components-list-all".
    destruct (Cache_get "anime-components-list-all" t0 c) as [cached c1].
    simpl in Hmiss. rewrite Hmiss. reflexivity. }
  simpl fst. simpl snd. split.
  - apply list_handler_hit with (key := "anime-components-list-all").
    + unfold or_else. rewrite Hfalsy. reflexivity.
    + apply stored_then_read; [reflexivity | exact Hle].
    + reflexivity.
  - eexists. split; [reflexivity|]. vm_compute. reflexivity.
Qed.

Lemma listing_all_shadows_unfiltered_witness :
  let first := ListAnimeComponents.handleListAnimeComponents
                 (arg "category" "all") 0 ∅ in
  truthy (get_prop (VObj []) "category") = false
  /\ 9 <= 0 + 60 * 60 * 1000
  /\ truthy (fst (Cache_get "anime-components-list-all" 0 ∅)) = false
  /\ ListAnimeComponents.handleListAnimeComponents (VObj []) 9 (snd first) = first.
Proof.
  intros first.
  assert (truthy (get_prop (VObj []) "category") = false) as Hfalsy by reflexivity.
  assert (9 <= 0 + 60 * 60 * 1000) as Hle by discriminate.
  assert (truthy (fst (Cache_get "anime-components-list-all" 0 ∅)) = false)
    as Hmiss by reflexivity.
  split; [exact Hfalsy|]. split; [exact Hle|]. split; [exact Hmiss|].
  exact (proj1 (listing_all_shadows_unfiltered ∅ (VObj []) 0 9 Hfalsy Hle Hmiss)).
Defined.

(** ** Listing components *)

Lemma concat_mentions (x : string) (l : list string) :
  (exists y, In y l /\ includes y x = true) -> includes (String.concat "" l) x = true.
Proof. apply (join_mentions "" x l). Qed.

Lemma formatComponent_names (comp : ListAnimeComponents.component) :
  includes (ListAnimeComponents.formatComponent comp)
           (ListAnimeComponents.name comp) = true.
Proof. unfold ListAnimeComponents.formatComponent. find_piece. Qed.

(** X17. On a cache miss the listing for a non-empty category names every
    component of the table whose category is the same text when case is
    ignored, and when there is none it says so and gives the four
    categories; the listing without a category (or with a falsy one) names
    all components of the table. *)
Theorem listing_by_category :
  forall (c : gmap string CacheItem) (now : Z),
    (forall cat,
        cat <> "" ->
        truthy (fst (Cache_get ("anime-components-list-" +:+ cat) now c)) = false ->
        exists text,
          fst (ListAnimeComponents.handleListAnimeComponents (arg "category" cat) now c)
          = Ok (text_response (VStr text))
          /\ (forall comp,
                In comp ListAnimeComponents.getAllComponents ->
                ci_equal (ListAnimeComponents.category comp) cat = true ->
                includes text (ListAnimeComponents.name comp) = true)
          /\ ((forall comp,
                  In comp ListAnimeComponents.getAllComponents ->
                  ci_equal (ListAnimeComponents.category comp) cat = false) ->
              includes text ("No components found for category " +:+ dq +:+ cat +:+ dq
                             +:+ ". Available categories: core, timeline, utilities, svg")
              = true))
    /\ (forall params,
          truthy (get_prop params "category") = false ->
          truthy (fst (Cache_get "anime-components-list-all" now c)) = false ->
          exists text,
            fst (ListAnimeComponents.handleListAnimeComponents params now c)
            = Ok (text_response (VStr text))
            /\ forall comp,
                 In comp ListAnimeComponents.getAllComponents ->
                 includes text (ListAnimeComponents.name comp) = true).
Proof.
  intros c now. split.
  - intros cat Hne Hmiss.
    assert (String.eqb cat "" = false) as Hnonempty
      by (destruct (String.eqb_spec cat ""); [contradiction | reflexivity]).
    unfold ListAnimeComponents.handleListAnimeComponents.
    change (get_prop (arg "category" cat) "category") with (VStr cat).
    cbv beta iota zeta.
    assert (or_else (VStr cat) (VStr "all") = VStr cat) as ->
      by (unfold or_else; simpl; rewrite Hnonempty; reflexivity).
    change (to_string (VStr cat)) with cat.
    destruct (Cache_get ("anime-components-list-" +:+ cat) now c) as [cached c1].
    simpl in Hmiss. rewrite Hmiss.
    assert (truthy (VStr cat) = true) as Htruthy by (simpl; rewrite Hnonempty; reflexivity).
    rewrite Htruthy. simpl fst.
    eexists. split; [reflexivity|].
    unfold ListAnimeComponents.formatComponentsList. rewrite Htruthy.
    change (to_string (VStr cat)) with cat. split.
    + intros comp Hin Hcat.
      do 5 apply includes_app_r. apply includes_app_l.
      apply concat_mentions. exists (ListAnimeComponents.formatComponent comp).
      split; [|apply formatComponent_names].
      apply in_map. unfold ListAnimeComponents.filterComponents.
      apply filter_In. split; [exact Hin|].
      apply String.eqb_eq, ci_equal_lower, Hcat.
    + intros Hnone.
      assert (ListAnimeComponents.filterComponents cat = []) as ->.
      { destruct (ListAnimeComponents.filterComponents cat) as [|comp l] eqn:Hf;
          [reflexivity|].
        assert (In comp (ListAnimeComponents.filterComponents cat)) as Hin
          by (rewrite Hf; left; reflexivity).
        unfold ListAnimeComponents.filterComponents in Hin.
        apply filter_In in Hin as [Hin Hsame].
        apply String.eqb_eq, ci_equal_lower in Hsame.
        rewrite (Hnone comp Hin) in Hsame. discriminate. }
      do 6 apply includes_app_r. rewrite <- !string_app_assoc.
      apply includes_app_l, includes_refl.
  - intros params Hfalsy Hmiss.
    unfold ListAnimeComponents.handleListAnimeComponents. cbv zeta.
    assert (or_else (get_prop params "category") (VStr "all") = VStr "all") as ->
      by (unfold or_else; rewrite Hfalsy; reflexivity).
    change ("anime-components-list-" +:+ to_string (VStr "all"))
      with "anime-components-list-all".
    destruct (Cache_get "anime-components-list-all" now c) as [cached c1].
    simpl in Hmiss. rewrite Hmiss, Hfalsy. simpl fst.
    eexists. split; [reflexivity|].
    unfold ListAnimeComponents.formatComponentsList. rewrite Hfalsy.
    intros comp Hin.
    assert (forallb (fun comp =>
              includes
                ("# Anime.js Components" +:+ "" +:+ nl +:+ nl
                 +:+ ("Total: "
                      +:+ show_nat (List.length ListAnimeComponents.getAllComponents)
                      +:+ " components available" +:+ nl +:+ nl)
                 +:+ String.concat ""
                       (map (ListAnimeComponents.formatGroup
                               ListAnimeComponents.getAllComponents)
                            ["core"; "timeline"; "utilities"; "svg"])
                 +:+ "")
                (ListAnimeComponents.name comp))
              ListAnimeComponents.getAllComponents = true) as Hall
      by (vm_compute; reflexivity).
    rewrite forallb_forall in Hall. exact (Hall comp Hin).
Qed.

(** ** Examples: what the search advertises *)

Lemma listing_by_category_witness :
  "CORE" <> ""
  /\ truthy (fst (Cache_get ("anime-components-list-" +:+ "CORE") 0 ∅)) = false
  /\ exists text,
       fst (ListAnimeComponents.handleListAnimeComponents (arg "category" "CORE") 0 ∅)
       = Ok (text_response (VStr text))
       /\ includes text "anime()" = true.
Proof.
  assert ("CORE" <> "") as Hne by discriminate.
  assert (truthy (fst (Cache_get ("anime-components-list-" +:+ "CORE") 0 ∅)) = false)
    as Hmiss by reflexivity.
  split; [exact Hne|]. split; [exact Hmiss|].
  destruct (proj1 (listing_by_category ∅ 0) "CORE" Hne Hmiss)
    as (text & Htext & Hnames & _).
  exists text. split; [exact Htext|].
  assert (exists comp, In comp ListAnimeComponents.getAllComponents
                       /\ ListAnimeComponents.name comp = "anime()"
                       /\ ListAnimeComponents.category comp = "core")
    as (comp & Hin & Hname & Hcat)
    by (eexists; split; [left; reflexivity | split; reflexivity]).
  rewrite <- Hname. apply (Hnames comp Hin). rewrite Hcat. reflexivity.
Defined.

(** X18. The search table and the example table disagree: four of the twelve
    examples the search returns (each with the advice to fetch it from
    [get_anime_example] under its id) are not in the table of
    [get_anime_example], which answers "not found" for them; the other eight
    are found. *)
Theorem searched_examples_partly_unavailable :
  forall given : Given,
    map SearchAnimeExamples.id (unavailable_examples given)
    = [ "loading-spinner"; "button-hover"; "card-flip"; "particles" ]
    /\ (forall e, In e (unavailable_examples given) ->
          GetAnimeExample.getExample given (SearchAnimeExamples.id e)
          = text_response
              (VStr (GetAnimeExample.not_found_text given (SearchAnimeExamples.id e))))
    /\ List.length SearchAnimeExamples.examples = 12%nat
    /\ forall e, In e SearchAnimeExamples.examples ->
         ~ In (SearchAnimeExamples.id e)
              [ "loading-spinner"; "button-hover"; "card-flip"; "particles" ] ->
         exists found,
           object_get (GetAnimeExample.examples given) (SearchAnimeExamples.id e)
           = OwnProp found.
Proof.
  intros given.
  assert (map SearchAnimeExamples.id (unavailable_examples given)
          = [ "loading-spinner"; "button-hover"; "card-flip"; "particles" ]) as Hids
    by (vm_compute; reflexivity).
  split; [exact Hids|]. split; [|split; [reflexivity|]].
  - intros e He.
    assert (In (SearchAnimeExamples.id e)
               [ "loading-spinner"; "button-hover"; "card-flip"; "particles" ]) as Hid
      by (rewrite <- Hids; apply in_map, He).
    simpl in Hid.
    repeat (destruct Hid as [<-|Hid]; [reflexivity|]). destruct Hid.
  - intros e He Hnot.
    assert (forallb
              (fun e =>
                 existsb (String.eqb (SearchAnimeExamples.id e))
                         [ "loading-spinner"; "button-hover"; "card-flip"; "particles" ]
                 || match object_get (GetAnimeExample.examples given)
                                     (SearchAnimeExamples.id e) with
                    | OwnProp _ => true
                    | _ => false
                    end)
              SearchAnimeExamples.examples = true) as Hall
      by (vm_compute; reflexivity).
    rewrite forallb_forall in Hall. specialize (Hall e He).
    apply orb_true_iff in Hall as [Hin | Hown].
    + exfalso. apply Hnot. apply existsb_exists in Hin as (k & Hk & Heq).
      apply String.eqb_eq in Heq. subst k. exact Hk.
    + destruct (object_get _ _) as [found| |]; [eauto | discriminate | discriminate].
Qed.

(** X19. A name that no table answers (neither an own key nor a member
    inherited from [Object.prototype]) gets a normal response that lists
    every key of the table: the components, the example types, the topics. *)
Theorem unknown_names_list_alternatives :
  forall (given : Given) (name : string),
    (object_get GetAnimeComponent.components (strip_parens (toLowerCase name)) = NoProp ->
     exists text,
       GetAnimeComponent.getComponentInfo name = text_response (VStr text)
       /\ forall key, In key (object_keys GetAnimeComponent.components) ->
                      includes text key = true)
    /\ (object_get (GetAnimeExample.examples given) (dash_underscores (toLowerCase name))
        = NoProp ->
        exists text,
          GetAnimeExample.getExample given name = text_response (VStr text)
          /\ forall key, In key (object_keys (GetAnimeExample.examples given)) ->
                         includes text key = true)
    /\ (object_get (GetAnimeDocs.docs (txt_docs given)) (dash_underscores (toLowerCase name))
        = NoProp ->
        exists text,
          GetAnimeDocs.getDocumentation (txt_docs given) name = text_response (VStr text)
          /\ forall key, In key (object_keys (GetAnimeDocs.docs (txt_docs given))) ->
                         includes text key = true).
Proof.
  intros given name. split; [|split].
  - apply unknown_component_lists_components.
  - intros Hno. unfold GetAnimeExample.getExample. rewrite Hno.
    eexists. split; [reflexivity|].
    intros key Hkey. unfold GetAnimeExample.not_found_text.
    do 7 apply includes_app_r.
    apply join_mentions. exists ("- " +:+ key). split.
    + apply in_map. exact Hkey.
    + apply includes_app_r, includes_refl.
  - intros Hno. eexists. apply (unknown_topic_lists_topics _ _ Hno).
Qed.

Lemma unknown_names_list_alternatives_witness :
  object_get (GetAnimeExample.examples plain_given)
             (dash_underscores (toLowerCase "card-flip")) = NoProp
  /\ exists text,
       GetAnimeExample.getExample plain_given "card-flip" = text_response (VStr text)
       /\ includes text "stagger-grid" = true.
Proof.
  assert (object_get (GetAnimeExample.examples plain_given)
                     (dash_underscores (toLowerCase "card-flip")) = NoProp) as Hno
    by reflexivity.
  split; [exact Hno|].
  destruct (proj1 (proj2 (unknown_names_list_alternatives plain_given "card-flip")) Hno)
    as (text & Htext & Hkeys).
  exists text. split; [exact Htext|].
  apply Hkeys. simpl. tauto.
Defined.

(** ** Resources *)












(** ** Prompts *)

Lemma append_empty_r (s : string) : s +:+ "" = s.
Proof.
  induction s as [|c s IH]; [reflexivity|]. rewrite append_cons, IH. reflexivity.
Qed.

(** X22. [get_prompt] for one of the three prompts needs an [arguments]
    value to read from: when the request has none, the prompt handler fails
    with a [TypeError] (the defaults are not used) and the breaker records
    one failure.  With any [arguments] other than [null] the request returns
    the prompt: a description that names the argument the prompt reads, or
    its default when [arguments] has none, and one assistant message with a
    text; the breaker is CLOSED without failures afterwards. *)
Theorem prompt_needs_arguments :
  forall (given : Given) (p : prompt_entry) (w : World),
    In p prompt_table ->
    execute_enter (external w) (clock w) <> None ->
    (exists w',
        server given get_prompt (VObj [("name", VStr (p_name p))]) w
        = (Throw TypeError, w')
        /\ failures (external w') = failures (external w) + 1)
    /\ (forall args,
          args <> VUndefined -> args <> VNull ->
          exists text w',
            server given get_prompt
                   (VObj [("name", VStr (p_name p)); ("arguments", args)]) w
            = (Ok (VObj
                     [ ("description",
                        VStr (p_before p
                              +:+ to_string (or_else (get_prop args (p_field p))
                                                     (VStr (p_default p)))
                              +:+ p_after p));
                       ("messages",
                        VArr [ VObj [ ("role", VStr "assistant");
                                      ("content",
                                       VObj [ ("type", VStr "text");
                                              ("text", text) ]) ] ]) ]),
               w')
            /\ state (external w') = CLOSED
            /\ failures (external w') = 0).
Proof.
  intros given p w Hp Hadm.
  destruct (execute_enter (external w) (clock w)) as [b|] eqn:He; [|congruence].
  pose proof (execute_enter_Some _ _ _ He) as (_ & Hf & _ & _).
  split.
  - simpl in Hp.
    repeat (destruct Hp as [<-|Hp];
            [ eexists; split;
              [ unfold server, serve, handleRequest; simpl;
                unfold execute; rewrite He; reflexivity
              | simpl; lia ] | ]).
    destruct Hp.
  - intros args Hu Hn. simpl in Hp.
    repeat (destruct Hp as [<-|Hp];
            [ cbn [p_name p_field p_default p_before p_after];
              rewrite ?append_empty_r;
              destruct args; try congruence;
              (eexists; eexists; split;
               [ unfold server, serve, handleRequest; simpl;
                 unfold execute; rewrite He; reflexivity
               | split; reflexivity ]) | ]).
    destruct Hp.
Qed.

Lemma prompt_needs_arguments_witness :
  let p := {| p_name := "component_usage"; p_field := "componentName";
              p_default := "anime"; p_before := "Usage examples for ";
              p_after := "" |} in
  In p prompt_table
  /\ execute_enter (external (boot 0)) (clock (boot 0)) <> None
  /\ (exists w',
        server plain_given get_prompt (VObj [("name", VStr "component_usage")]) (boot 0)
        = (Throw TypeError, w')
        /\ failures (external w') = failures (external (boot 0)) + 1)
  /\ VObj [("componentName", VStr "timeline")] <> VUndefined
  /\ VObj [("componentName", VStr "timeline")] <> VNull
  /\ exists text w',
       server plain_given get_prompt
              (VObj [("name", VStr "component_usage");
                     ("arguments", VObj [("componentName", VStr "timeline")])])
              (boot 0)
       = (Ok (VObj
                [ ("description", VStr "Usage examples for timeline");
                  ("messages",
                   VArr [ VObj [ ("role", VStr "assistant");
                                 ("content",
                                  VObj [ ("type", VStr "text");
                                         ("text", text) ]) ] ]) ]),
          w').
Proof.
  intros p.
  assert (In p prompt_table) as Hin by (right; left; reflexivity).
  assert (execute_enter (external (boot 0)) (clock (boot 0)) <> None) as Hadm
    by discriminate.
  assert (VObj [("componentName", VStr "timeline")] <> VUndefined) as Hu
    by discriminate.
  assert (VObj [("componentName", VStr "timeline")] <> VNull) as Hn by discriminate.
  destruct (prompt_needs_arguments plain_given p (boot 0) Hin Hadm) as [Hfail Hok].
  split; [exact Hin|]. split; [exact Hadm|]. split; [exact Hfail|].
  split; [exact Hu|]. split; [exact Hn|].
  destruct (Hok _ Hu Hn) as (text & w' & Hres & _).
  exists text, w'. exact Hres.
Defined.
